(** * A shallow embedding of [code.cc]: result holders, awaitables, promises
    and tasks of a minimal C++20 coroutine library.

    Coroutine frames live in a heap indexed by frame address; the promise of
    a frame is its [CoroutineRetvalHolder].  Every member function of the
    source is a computation in a small state-and-error monad over the
    [World]: the heap of live frames, the log of observable events (mutex
    operations, field accesses, resumptions, destructions, console output)
    and the telemetry counters.  Resuming a [std::coroutine_handle<>] logs
    the resumption and runs the resumed coroutine inline, inside the caller
    and under whatever lock the caller holds; what a resumed coroutine does
    is code of the users of the library, and a parameter here. *)

From stdpp Require Import base option list gmap strings.
From Stdlib Require Import NArith ZArith.

(** ** Handles, events and counters *)

(** [std::coroutine_handle<>]: a type-erased frame address. *)
Definition coroutine_handle := nat.

(** The three guarded members of a [CoroutineRetvalHolder]. *)
Inductive Field := returned_field | value_field | to_resume_field.

Inductive Event :=
| EvLock (c : nat)
| EvUnlock (c : nat)
| EvRead (c : nat) (f : Field)
| EvWrite (c : nat) (f : Field)
| EvResume (h : coroutine_handle)
| EvDestroy (c : nat)
| EvCout (s : string).

Global Instance Field_eq_dec : EqDecision Field.
Proof. solve_decision. Defined.

Global Instance Event_eq_dec : EqDecision Event.
Proof. solve_decision. Defined.

(** [++] on a [size_t] counter: unsigned 64-bit wrap-around. *)
Definition size_t_incr (n : N) : N := ((n + 1) mod 2 ^ 64)%N.

Record ExecutorStats := mkStats {
  total_awaitable_ready : N;
  total_awaitable_need_to_wait : N;
  total_immediate_ready : N
}.

Definition Executor_initial : ExecutorStats := mkStats 0 0 0.

Inductive StatCounter := awaitable_ready | awaitable_need_to_wait | immediate_ready.

Definition stats_incr (k : StatCounter) (s : ExecutorStats) : ExecutorStats :=
  match k with
  | awaitable_ready =>
      mkStats (size_t_incr (total_awaitable_ready s))
              (total_awaitable_need_to_wait s) (total_immediate_ready s)
  | awaitable_need_to_wait =>
      mkStats (total_awaitable_ready s)
              (size_t_incr (total_awaitable_need_to_wait s)) (total_immediate_ready s)
  | immediate_ready =>
      mkStats (total_awaitable_ready s)
              (total_awaitable_need_to_wait s) (size_t_incr (total_immediate_ready s))
  end.

(** What [final_suspend] (and [initial_suspend]) can return. *)
Inductive Suspend := suspend_never | suspend_always.

(** How a special member function is declared. *)
Inductive Declaration := defined | deleted.

Inductive TaskConstructor := Task_from_handle | Task_copy | Task_move.

(** ** Readers of the event log *)

(** Is the mutex of holder [c] held after the events [evs], given that it was
    [held] before them? *)
Fixpoint lock_held (c : nat) (held : bool) (evs : list Event) : bool :=
  match evs with
  | [] => held
  | EvLock c' :: evs' => lock_held c (if decide (c' = c) then true else held) evs'
  | EvUnlock c' :: evs' => lock_held c (if decide (c' = c) then false else held) evs'
  | _ :: evs' => lock_held c held evs'
  end.

(** Every resumption in [evs] happens while the mutex of [c] is free. *)
Fixpoint resumes_unlocked (c : nat) (held : bool) (evs : list Event) : bool :=
  match evs with
  | [] => true
  | EvLock c' :: evs' => resumes_unlocked c (if decide (c' = c) then true else held) evs'
  | EvUnlock c' :: evs' => resumes_unlocked c (if decide (c' = c) then false else held) evs'
  | EvResume _ :: evs' => negb held && resumes_unlocked c held evs'
  | _ :: evs' => resumes_unlocked c held evs'
  end.

(** Every resumption in [evs] happens while the mutex of [c] is held. *)
Fixpoint resumes_locked (c : nat) (held : bool) (evs : list Event) : bool :=
  match evs with
  | [] => true
  | EvLock c' :: evs' => resumes_locked c (if decide (c' = c) then true else held) evs'
  | EvUnlock c' :: evs' => resumes_locked c (if decide (c' = c) then false else held) evs'
  | EvResume _ :: evs' => held && resumes_locked c held evs'
  | _ :: evs' => resumes_locked c held evs'
  end.

(** Every read and write of a field of [c] in [evs] happens while the mutex
    of [c] is held. *)
Fixpoint accesses_locked (c : nat) (held : bool) (evs : list Event) : bool :=
  match evs with
  | [] => true
  | EvLock c' :: evs' => accesses_locked c (if decide (c' = c) then true else held) evs'
  | EvUnlock c' :: evs' => accesses_locked c (if decide (c' = c) then false else held) evs'
  | EvRead c' _ :: evs' | EvWrite c' _ :: evs' =>
      (if decide (c' = c) then held else true) && accesses_locked c held evs'
  | _ :: evs' => accesses_locked c held evs'
  end.

(** The handles resumed by [evs], in order. *)
Fixpoint resumed (evs : list Event) : list coroutine_handle :=
  match evs with
  | [] => []
  | EvResume h :: evs' => h :: resumed evs'
  | _ :: evs' => resumed evs'
  end.

(** The number of times [h] occurs in [hs]. *)
Definition occurrences (h : coroutine_handle) (hs : list coroutine_handle) : nat :=
  length (filter (λ h', h' = h) hs).

(** The events of a loop of [resume()] over waiters each of which reads the
    value of holder [c] and comes back. *)
Definition resumed_readers (c : nat) (hs : list coroutine_handle) : list Event :=
  flat_map (λ h, [EvResume h; EvRead c value_field]) hs.

(** ** The world and its monad *)

Section Coroutines.
Context {T : Type}.

(** [template <typename RETVAL> struct CoroutineRetvalHolder].  [mut] is
    [true] while the mutex is locked.  The [<void>] specialisation is this
    record at [T := unit]: its [value] carries nothing. *)
Record CoroutineRetvalHolder := mkHolder {
  mut : bool;
  returned : bool;
  value : T;
  to_resume : list coroutine_handle
}.

Record World := mkWorld {
  frames : gmap nat CoroutineRetvalHolder;
  trace : list Event;
  executor : ExecutorStats
}.

(** [Terminated] is [std::terminate()]; [Blocked] is a [lock()] on a mutex
    that is already held (it never returns in this thread); [Undefined] is a
    use of a null or dangling frame address. *)
Inductive Outcome (A : Type) :=
| Done (a : A) (w : World)
| Terminated (w : World)
| Blocked
| Undefined.
Global Arguments Done {A} a w.
Global Arguments Terminated {A} w.
Global Arguments Blocked {A}.
Global Arguments Undefined {A}.

Definition M (A : Type) := World → Outcome A.

Definition ret {A} (a : A) : M A := λ w, Done a w.

Definition bind {A B} (k : A → M B) (m : M A) : M B := λ w,
  match m w with
  | Done a w' => k a w'
  | Terminated w' => Terminated w'
  | Blocked => Blocked
  | Undefined => Undefined
  end.

Global Instance M_ret : MRet M := @ret.
Global Instance M_bind : MBind M := @bind.

Definition terminate {A} : M A := λ w, Terminated w.
Definition blocked {A} : M A := λ _, Blocked.
Definition undefined {A} : M A := λ _, Undefined.

Definition emit (e : Event) : M unit := λ w,
  Done tt (mkWorld (frames w) (trace w ++ [e]) (executor w)).

(** Dereference a frame address: the frame must be live. *)
Definition load (c : nat) : M CoroutineRetvalHolder := λ w,
  match frames w !! c with
  | Some hd => Done hd w
  | None => Undefined
  end.

Definition store (c : nat) (hd : CoroutineRetvalHolder) : M unit := λ w,
  Done tt (mkWorld (<[c := hd]> (frames w)) (trace w) (executor w)).

(** Dereference a pointer that may be null. *)
Definition deref (p : option nat) : M nat :=
  match p with
  | Some c => (_ ← load c; ret c)
  | None => undefined
  end.

Definition count (k : StatCounter) : M unit := λ w,
  Done tt (mkWorld (frames w) (trace w) (stats_incr k (executor w))).

(** [std::lock_guard<std::mutex> lock(m)] for the rest of the scope [body]. *)
Definition lock (c : nat) : M unit :=
  hd ← load c;
  if mut hd then blocked
  else (store c (mkHolder true (returned hd) (value hd) (to_resume hd)) ;;
        emit (EvLock c)).

Definition unlock (c : nat) : M unit :=
  hd ← load c;
  store c (mkHolder false (returned hd) (value hd) (to_resume hd)) ;;
  emit (EvUnlock c).

Definition lock_guard {A} (c : nat) (body : M A) : M A :=
  lock c ;; a ← body; unlock c ;; ret a.

(** Member accesses. *)
Definition get_returned (c : nat) : M bool :=
  hd ← load c; emit (EvRead c returned_field) ;; ret (returned hd).

Definition set_returned (c : nat) (b : bool) : M unit :=
  hd ← load c; emit (EvWrite c returned_field) ;;
  store c (mkHolder (mut hd) b (value hd) (to_resume hd)).

Definition get_value (c : nat) : M T :=
  hd ← load c; emit (EvRead c value_field) ;; ret (value hd).

Definition set_value (c : nat) (v : T) : M unit :=
  hd ← load c; emit (EvWrite c value_field) ;;
  store c (mkHolder (mut hd) (returned hd) v (to_resume hd)).

Definition get_to_resume (c : nat) : M (list coroutine_handle) :=
  hd ← load c; emit (EvRead c to_resume_field) ;; ret (to_resume hd).

Definition push_back (c : nat) (h : coroutine_handle) : M unit :=
  hd ← load c; emit (EvWrite c to_resume_field) ;;
  store c (mkHolder (mut hd) (returned hd) (value hd) (to_resume hd ++ [h])).

(** The coroutine behind a handle is code of the users of the library:
    what it does from the point where it was suspended until it suspends
    again or ends, when control returns to whoever resumed it, is a
    parameter.  It can return, terminate the process, block, or be
    undefined. *)
Variable continuation : coroutine_handle → M unit.

(** [h.resume()]: the coroutine runs inline, in the caller. *)
Definition resume (h : coroutine_handle) : M unit :=
  emit (EvResume h) ;; continuation h.

(** [for (auto& h : hs) body(h);] *)
Fixpoint for_each (hs : list coroutine_handle) (body : coroutine_handle → M unit) : M unit :=
  match hs with
  | [] => ret tt
  | h :: hs' => (body h ;; for_each hs' body)
  end.

(** ** [CoroutineAwaitResume] and [Async] *)

Record CoroutineAwaitResume := mkAwait {
  pself : option nat;
  immediate_value : T;
  is_immediate : bool
}.

(** [CoroutineAwaitResume(RETVAL immediate)] *)
Definition Await_immediate (immediate : T) : CoroutineAwaitResume :=
  mkAwait None immediate true.

(** [explicit CoroutineAwaitResume(CoroutineRetvalHolder<RETVAL>& self)];
    [immediate_value] is default-initialised to [dflt]. *)
Definition Await_deferred (dflt : T) (self : nat) : CoroutineAwaitResume :=
  mkAwait (Some self) dflt false.

Definition CoroutineAwaitResume_await_resume (a : CoroutineAwaitResume) : M T :=
  if negb (is_immediate a) then
    c ← deref (pself a);
    lock_guard c
      (r ← get_returned c;
       if negb (r : bool) then terminate else get_value c)
  else ret (immediate_value a).

(** [CoroutineAwaitResume<void>::await_resume] *)
Definition CoroutineAwaitResume_void_await_resume (a : CoroutineAwaitResume) : M unit :=
  if negb (is_immediate a) then
    c ← deref (pself a);
    lock_guard c
      (r ← get_returned c;
       if negb (r : bool) then terminate else ret tt)
  else ret tt.

(** [Async<RETVAL>::await_ready], in both configurations of the
    preprocessor. *)
Definition Async_await_ready (TELEMETRY : bool) (a : CoroutineAwaitResume) : M bool :=
  if negb (is_immediate a) then
    c ← deref (pself a);
    lock_guard c
      (if negb TELEMETRY then get_returned c
       else
         r ← get_returned c;
         if (r : bool) then (count awaitable_ready ;; ret true)
         else (count awaitable_need_to_wait ;; ret false))
  else
    (if TELEMETRY then count immediate_ready else ret tt) ;;
    ret true.

Definition Async_await_suspend (a : CoroutineAwaitResume) (h : coroutine_handle) : M unit :=
  if negb (is_immediate a) then
    c ← deref (pself a);
    lock_guard c
      (r ← get_returned c;
       if (r : bool) then resume h else push_back c h)
  else
    emit (EvCout "FATAL: Should never attempt to `await_suspend` an immediate value."%string) ;;
    terminate.

(** ** [Promise] *)

Definition initial_suspend : Suspend := suspend_never.
Definition final_suspend : Suspend := suspend_never.
Definition unhandled_exception : M unit := terminate.

(** [Promise<T>::return_value], on the promise of frame [c]. *)
Definition return_value (c : nat) (v : T) : M unit :=
  lock_guard c
    (set_value c v ;;
     set_returned c true ;;
     hs ← get_to_resume c;
     for_each hs resume).

(** [Promise<void>::return_void] *)
Definition return_void (c : nat) : M unit :=
  lock_guard c
    (set_returned c true ;;
     hs ← get_to_resume c;
     for_each hs resume).

(** ** [Task] *)

Record Task := mkTask { handle : option nat }.

Definition Task_constructor (k : TaskConstructor) : Declaration :=
  match k with
  | Task_from_handle => defined
  | Task_copy => deleted
  | Task_move => defined
  end.

(** [Task(Task&& rhs)]: the new task, and [rhs] afterwards. *)
Definition Task_move_construct (rhs : Task) : Task * Task :=
  (mkTask (handle rhs), mkTask None).

(** [handle.destroy()]: the frame, and the promise in it, are freed. *)
Definition free (c : nat) : M unit := λ w,
  Done tt (mkWorld (delete c (frames w)) (trace w) (executor w)).

Definition destroy (c : nat) : M unit :=
  _ ← load c;
  emit (EvDestroy c) ;;
  free c.

(** [~Task()] *)
Definition Task_destructor (t : Task) : M unit :=
  match handle t with
  | Some c => destroy c
  | None => ret tt
  end.

Definition Task_await_ready (t : Task) : M bool :=
  c ← deref (handle t);
  get_returned c.

Definition Task_await_suspend (t : Task) (h : coroutine_handle) : M unit :=
  c ← deref (handle t);
  lock_guard c
    (r ← get_returned c;
     if (r : bool) then resume h else push_back c h).

(** [Task<T>::await_resume] for a [T] other than [void]. *)
Definition Task_await_resume (t : Task) : M T :=
  c ← deref (handle t);
  get_value c.

(** [Task<void>::await_resume]: the [if constexpr] branch that returns at
    once. *)
Definition Task_void_await_resume (t : Task) : M unit := ret tt.

(** ** The coroutine protocol around a body *)

(** A call of a coroutine function allocates a frame with a fresh promise
    (the default member initialisers of the holder; [indeterminate] is what
    [value] holds before it is assigned) and takes [get_return_object()]. *)
Definition get_return_object (indeterminate : T) : M Task := λ w,
  let c := fresh (dom (frames w)) in
  Done (mkTask (Some c))
       (mkWorld (<[c := mkHolder false false indeterminate []]> (frames w))
                (trace w) (executor w)).

(** The final suspend point: with [suspend_never] the coroutine runs off its
    end and its frame is destroyed. *)
Definition final_suspend_point (c : nat) : M unit :=
  match final_suspend with
  | suspend_never => destroy c
  | suspend_always => ret tt
  end.

(** [co_return v;] in the body of the coroutine of frame [c]. *)
Definition co_return (c : nat) (v : T) : M unit :=
  return_value c v ;; final_suspend_point c.

(** A coroutine whose body is [co_return v;] ([initial_suspend] is
    [suspend_never]: the body runs inside the call). *)
Definition call_co_return (indeterminate v : T) : M Task :=
  t ← get_return_object indeterminate;
  c ← deref (handle t);
  match initial_suspend with
  | suspend_never => (co_return c v ;; ret t)
  | suspend_always => ret t
  end.

(** ** Two threads on one holder *)

(** A thread is what is left of a member function: nothing, or one atomic
    step that gives what is left after it.  The steps are the primitives the
    function is made of, in its order. *)
#[local] Unset Elimination Schemes.
Inductive Thread :=
| Finished
| Step (s : M Thread).
#[local] Set Elimination Schemes.

Definition atomic {A} (m : M A) (rest : A → Thread) : Thread :=
  Step (a ← m; ret (rest a)).

(** [h.resume()] in a thread: the call, and then the resumed coroutine,
    which runs in this thread until it returns to the caller.  The run of
    the coroutine is taken as one step; the statements about races are for
    coroutines that leave the frames alone, for which it makes no difference
    where the steps of the other thread fall among theirs. *)
Definition resume_steps (h : coroutine_handle) (rest : Thread) : Thread :=
  atomic (emit (EvResume h)) (λ _, atomic (continuation h) (λ _, rest)).

Fixpoint for_each_steps (hs : list coroutine_handle)
    (body : coroutine_handle → Thread → Thread) (rest : Thread) : Thread :=
  match hs with
  | [] => rest
  | h :: hs' => body h (for_each_steps hs' body rest)
  end.

(** The scope of the [lock_guard] of both [await_suspend] functions. *)
Definition await_suspend_critical_steps (c : nat) (h : coroutine_handle) : Thread :=
  atomic (lock c) (λ _,
  atomic (get_returned c) (λ r,
  let rest := atomic (unlock c) (λ _, Finished) in
  if (r : bool) then resume_steps h rest else atomic (push_back c h) (λ _, rest))).

Definition Task_await_suspend_steps (t : Task) (h : coroutine_handle) : Thread :=
  atomic (deref (handle t)) (λ c, await_suspend_critical_steps c h).

Definition Async_await_suspend_steps (a : CoroutineAwaitResume) (h : coroutine_handle)
    : Thread :=
  if negb (is_immediate a) then
    atomic (deref (pself a)) (λ c, await_suspend_critical_steps c h)
  else
    atomic (emit (EvCout "FATAL: Should never attempt to `await_suspend` an immediate value."%string))
      (λ _, atomic (terminate (A := unit)) (λ _, Finished)).

Definition publish_steps (c : nat) : Thread :=
  atomic (set_returned c true) (λ _,
  atomic (get_to_resume c) (λ hs,
  for_each_steps hs resume_steps (atomic (unlock c) (λ _, Finished)))).

Definition return_value_steps (c : nat) (v : T) : Thread :=
  atomic (lock c) (λ _, atomic (set_value c v) (λ _, publish_steps c)).

Definition return_void_steps (c : nat) : Thread :=
  atomic (lock c) (λ _, publish_steps c).

(** One thread alone, to its end. *)
Fixpoint run_thread (t : Thread) : M unit := λ w,
  match t with
  | Finished => Done tt w
  | Step s =>
      match s w with
      | Done t' w' => run_thread t' w'
      | Terminated w' => Terminated w'
      | Blocked => Blocked
      | Undefined => Undefined
      end
  end.

(** Two threads under a schedule: at each tick the chosen thread takes its
    next step; a thread whose step is blocked on a mutex waits and the tick
    passes.  The result is what is left of the two threads when the
    schedule is over. *)
Fixpoint interleave_upto (schedule : list bool) (t1 t2 : Thread) : M (Thread * Thread) := λ w,
  match schedule with
  | [] => Done (t1, t2) w
  | first :: schedule' =>
      match (if first then t1 else t2) with
      | Finished => interleave_upto schedule' t1 t2 w
      | Step s =>
          match s w with
          | Done t' w' =>
              if first then interleave_upto schedule' t' t2 w'
              else interleave_upto schedule' t1 t' w'
          | Terminated w' => Terminated w'
          | Blocked => interleave_upto schedule' t1 t2 w
          | Undefined => Undefined
          end
      end
  end.

(** The race has run to its end when both threads are finished. *)
Definition interleave (schedule : list bool) (t1 t2 : Thread) : M unit :=
  r ← interleave_upto schedule t1 t2;
  match r with
  | (Finished, Finished) => ret tt
  | _ => blocked
  end.

(** ** The operations as one interface *)

Inductive Op :=
| OpAsyncAwaitReady (a : CoroutineAwaitResume)
| OpAsyncAwaitSuspend (a : CoroutineAwaitResume) (h : coroutine_handle)
| OpAsyncAwaitResume (a : CoroutineAwaitResume)
| OpReturnValue (c : nat) (v : T)
| OpReturnVoid (c : nat)
| OpTaskAwaitReady (t : Task)
| OpTaskAwaitSuspend (t : Task) (h : coroutine_handle)
| OpTaskAwaitResume (t : Task)
| OpTaskDestructor (t : Task)
| OpGetReturnObject (indeterminate : T)
| OpFinalSuspend (c : nat).

Inductive Value :=
| VVoid
| VBool (b : bool)
| VRet (v : T)
| VTask (t : Task).

Definition run_op (TELEMETRY : bool) (o : Op) : M Value :=
  match o with
  | OpAsyncAwaitReady a => b ← Async_await_ready TELEMETRY a; ret (VBool b)
  | OpAsyncAwaitSuspend a h => Async_await_suspend a h ;; ret VVoid
  | OpAsyncAwaitResume a => v ← CoroutineAwaitResume_await_resume a; ret (VRet v)
  | OpReturnValue c v => return_value c v ;; ret VVoid
  | OpReturnVoid c => return_void c ;; ret VVoid
  | OpTaskAwaitReady t => b ← Task_await_ready t; ret (VBool b)
  | OpTaskAwaitSuspend t h => Task_await_suspend t h ;; ret VVoid
  | OpTaskAwaitResume t => v ← Task_await_resume t; ret (VRet v)
  | OpTaskDestructor t => Task_destructor t ;; ret VVoid
  | OpGetReturnObject i => t ← get_return_object i; ret (VTask t)
  | OpFinalSuspend c => final_suspend_point c ;; ret VVoid
  end.

Fixpoint run_ops (TELEMETRY : bool) (os : list Op) : M unit :=
  match os with
  | [] => ret tt
  | o :: os' => (run_op TELEMETRY o ;; run_ops TELEMETRY os')
  end.

(** Forgetting the telemetry counters. *)
Definition forget_stats (w : World) : World :=
  mkWorld (frames w) (trace w) Executor_initial.

Definition forget_stats_outcome {A} (r : Outcome A) : Outcome A :=
  match r with
  | Done a w => Done a (forget_stats w)
  | Terminated w => Terminated (forget_stats w)
  | Blocked => Blocked
  | Undefined => Undefined
  end.

Definition with_stats (s : ExecutorStats) (w : World) : World :=
  mkWorld (frames w) (trace w) s.

(** The events logged since the log had length [n]. *)
Definition events_since (n : nat) (w : World) : list Event := drop n (trace w).

End Coroutines.

Global Arguments CoroutineRetvalHolder : clear implicits.
Global Arguments World : clear implicits.
Global Arguments CoroutineAwaitResume : clear implicits.
Global Arguments Op : clear implicits.
Global Arguments Value : clear implicits.
Global Arguments M : clear implicits.
Global Arguments Outcome : clear implicits.

Global Arguments Thread : clear implicits.

(** [Task<int> foo() { co_return 42; }], with the coroutines that may be
    suspended when it is called. *)
Definition foo (continuation : coroutine_handle → M Z unit) : M Z Task :=
  call_co_return continuation 0%Z 42%Z.

(** ** Coroutines that wait *)

(** No coroutine is suspended: [resume()] on a handle that refers to none is
    undefined. *)
Definition nobody_suspended {T} : coroutine_handle → M T unit := λ _, undefined.

(** Every suspended coroutine sits in [co_await t] on the task [t], in a
    body like [v = co_await t; co_await std::suspend_always{};]: resumed, it
    takes [t.await_resume()] and suspends again at once, which returns
    control to whoever resumed it. *)
Definition awaiting_Task {T} (t : Task) : coroutine_handle → M T unit :=
  λ _, Task_await_resume t ;; ret tt.

(** The same for [co_await a] on the awaitable [a]: resumed, the coroutine
    takes [a.await_resume()] and suspends again at once. *)
Definition awaiting_Async {T} (a : CoroutineAwaitResume T) : coroutine_handle → M T unit :=
  λ _, CoroutineAwaitResume_await_resume a ;; ret tt.

(** Whenever a resumed coroutine returns to its resumer, it has taken the
    world from [w] to a [w'] with [R w w']. *)
Definition continuations_keep {T} (R : World T → World T → Prop)
    (continuation : coroutine_handle → M T unit) : Prop :=
  ∀ h w w', continuation h w = Done tt w' → R w w'.

(** The frames are what they were and nobody was resumed. *)
Definition undisturbed {T} (w w' : World T) : Prop :=
  frames w' = frames w ∧ ∃ evs, trace w' = trace w ++ evs ∧ resumed evs = [].

(** The counters are what they were. *)
Definition counters_kept {T} (w w' : World T) : Prop := executor w' = executor w.

(** Frame [c] is what it was. *)
Definition frame_kept {T} (c : nat) (w w' : World T) : Prop :=
  frames w' !! c = frames w !! c.

(** Every mutex that is held in [w'] was held in [w]. *)
Definition no_new_lock {T} (w w' : World T) : Prop :=
  ∀ c hd', frames w' !! c = Some hd' → mut hd' = true →
    ∃ hd, frames w !! c = Some hd ∧ mut hd = true.

(** Two resumed coroutines, one of a build with [TELEMETRY] and one of a
    build without, that do the same but for the counters, whatever the
    counters hold. *)
Definition same_but_counters {T} (k1 k2 : coroutine_handle → M T unit) : Prop :=
  ∀ h w (s1 s2 : ExecutorStats),
    forget_stats_outcome (k1 h (with_stats s1 w)) =
    forget_stats_outcome (k2 h (with_stats s2 w)).

(** ** Sample worlds *)

Definition world_empty : World Z := mkWorld ∅ [] Executor_initial.

(** One live frame at address 0 whose body has not returned; handles 7 and 8
    wait on it. *)
Definition holder_pending : CoroutineRetvalHolder Z := mkHolder false false 0%Z [7; 8].
Definition world_pending : World Z := mkWorld {[ 0 := holder_pending ]} [] Executor_initial.

(** The same frame after [return_value(42)]. *)
Definition holder_published : CoroutineRetvalHolder Z := mkHolder false true 42%Z [7; 8].
Definition world_published : World Z := mkWorld {[ 0 := holder_published ]} [] Executor_initial.

(** A frame that has returned 42 and has no waiter. *)
Definition world_published_alone : World Z :=
  mkWorld {[ 0 := mkHolder false true 42%Z [] ]} [] Executor_initial.

(** A frame whose body has not returned and that has no waiter. *)
Definition world_pending_alone : World Z :=
  mkWorld {[ 0 := mkHolder false false 0%Z [] ]} [] Executor_initial.

(** The waiters of the sample worlds, as they await the frame at 0: through
    its task, or through an [Async] on its holder. *)
Definition waiters_on_Task : coroutine_handle → M Z unit :=
  awaiting_Task (mkTask (Some 0)).

Definition waiters_on_Async : coroutine_handle → M Z unit :=
  awaiting_Async (Await_deferred 0%Z 0).

(** What one operation says about holder [c]: the log only grows, and unless
    the frame of [c] is destroyed, a holder that has returned stays returned
    with the same list of waiters. *)
Definition evolves {T} (c : nat) (w w' : World T) : Prop :=
  ∃ evs, trace w' = trace w ++ evs ∧
    (EvDestroy c ∈ evs ∨
     ∀ hd, frames w !! c = Some hd → returned hd = true →
       ∃ hd', frames w' !! c = Some hd' ∧ returned hd' = true ∧
              to_resume hd' = to_resume hd).

(** ** The await protocol and further readers of the world *)

(** [co_await t] on a task [t], as in the body of [bar], up to the point
    where the awaiting coroutine [h] either goes on with the value or is
    suspended: [await_ready], then [await_resume] when ready and
    [await_suspend(h)] when not. *)
Definition co_await_Task {T} (continuation : coroutine_handle → M T unit)
    (t : Task) (h : coroutine_handle) : M T (option T) :=
  ready ← Task_await_ready t;
  if (ready : bool) then (v ← Task_await_resume t; ret (Some v))
  else (Task_await_suspend continuation t h ;; ret None).

(** No mutex of a live frame is held. *)
Definition quiescent {T} (w : World T) : Prop :=
  map_Forall (λ _ hd, mut hd = false) (frames w).

(** The frame an operation works on, if any. *)
Definition op_target {T} (o : Op T) (w : World T) : option nat :=
  match o with
  | OpAsyncAwaitReady a | OpAsyncAwaitSuspend a _ | OpAsyncAwaitResume a =>
      if is_immediate a then None else pself a
  | OpReturnValue c _ | OpReturnVoid c | OpFinalSuspend c => Some c
  | OpTaskAwaitReady t | OpTaskAwaitSuspend t _ | OpTaskAwaitResume t
  | OpTaskDestructor t => handle t
  | OpGetReturnObject _ => Some (fresh (dom (frames w)))
  end.

Definition is_await_ready {T} (o : Op T) : bool :=
  match o with
  | OpAsyncAwaitReady _ => true
  | _ => false
  end.

(** The log only grows, and unless the frame of [c] is destroyed, the
    waiters of [c] stay where they are in its list. *)
Definition waiters_kept {T} (c : nat) (w w' : World T) : Prop :=
  ∃ evs, trace w' = trace w ++ evs ∧
    (EvDestroy c ∈ evs ∨
     ∀ hd, frames w !! c = Some hd →
       ∃ hd', frames w' !! c = Some hd' ∧ to_resume hd `prefix_of` to_resume hd').

(** The pending sample world while somebody holds the mutex of its frame,
    and the published one likewise. *)
Definition world_pending_locked : World Z :=
  mkWorld {[ 0 := mkHolder true false 0%Z [7; 8] ]} [] Executor_initial.

Definition world_published_locked : World Z :=
  mkWorld {[ 0 := mkHolder true true 42%Z [7; 8] ]} [] Executor_initial.

(** Two live frames: the pending one at 0 and a returned one at 1. *)
Definition world_two_frames : World Z :=
  mkWorld (<[1 := mkHolder false true 5%Z [3]]> {[ 0 := holder_pending ]}) []
          (mkStats (2 ^ 64 - 1) 4 0).

(** Two schedules for a race: the ticks alternate, the publish first; and the
    suspend runs to its end before the publish starts. *)
Definition schedule_alternating : list bool := concat (replicate 16 [false; true]).

Definition schedule_suspend_first : list bool := replicate 6 true ++ replicate 16 false.

(** ** Statements about computations *)

(** A computation that, whenever it returns, has taken the world to one
    related by [R]. *)
Definition preserves {T A} (R : World T → World T → Prop) (m : M T A) : Prop :=
  ∀ w x w', m w = Done x w' → R w w'.

(** The operations that call [resume()]. *)
Definition resumes {T} (o : Op T) : bool :=
  match o with
  | OpAsyncAwaitSuspend _ _ | OpReturnValue _ _ | OpReturnVoid _
  | OpTaskAwaitSuspend _ _ => true
  | _ => false
  end.

(** Two computations that do the same but for the counters, whatever the
    counters hold. *)
Definition oblivious {T A} (m1 m2 : M T A) : Prop :=
  ∀ w (s1 s2 : ExecutorStats),
    forget_stats_outcome (m1 (with_stats s1 w)) =
    forget_stats_outcome (m2 (with_stats s2 w)).

(** ** Where two racing threads are *)

(** The points of [await_suspend] on holder [c] and of a publish on it, and
    what is left of each function at each point. *)
Inductive PhaseA :=
| A_deref | A_lock | A_test | A_branch (r : bool) | A_called | A_unlock | A_end.

Inductive PhaseB :=
| B_lock | B_value | B_publish | B_list
| B_loop (hs : list coroutine_handle) | B_called (h : coroutine_handle) (hs : list coroutine_handle)
| B_end.

Definition thread_of_A {T} (k : coroutine_handle → M T unit) (c : nat) (h : coroutine_handle)
    (p : PhaseA) : Thread T :=
  let rest := atomic (unlock c) (λ _, Finished) in
  let branch (r : bool) :=
    if r then resume_steps k h rest else atomic (push_back c h) (λ _, rest) in
  match p with
  | A_deref => Task_await_suspend_steps k (mkTask (Some c)) h
  | A_lock => await_suspend_critical_steps k c h
  | A_test => atomic (get_returned c) branch
  | A_branch r => branch r
  | A_called => atomic (k h) (λ _, rest)
  | A_unlock => rest
  | A_end => Finished
  end.

(** [v] is the argument of [return_value], or [None] for [return_void]. *)
Definition publish_thread {T} (k : coroutine_handle → M T unit) (c : nat) (v : option T)
    : Thread T :=
  match v with
  | Some v => return_value_steps k c v
  | None => return_void_steps k c
  end.

Definition thread_of_B {T} (k : coroutine_handle → M T unit) (c : nat) (v : option T)
    (p : PhaseB) : Thread T :=
  let loop hs := for_each_steps hs (resume_steps k) (atomic (unlock c) (λ _, Finished)) in
  match p with
  | B_lock => publish_thread k c v
  | B_value =>
      match v with
      | Some v => atomic (set_value c v) (λ _, publish_steps k c)
      | None => publish_steps k c
      end
  | B_publish => publish_steps k c
  | B_list => atomic (get_to_resume c) loop
  | B_loop hs => loop hs
  | B_called h hs => atomic (k h) (λ _, loop hs)
  | B_end => Finished
  end.

(** Who is inside the scope of its [lock_guard]. *)
Definition holds_A (p : PhaseA) : bool :=
  match p with A_test | A_branch _ | A_called | A_unlock => true | _ => false end.

Definition holds_B (p : PhaseB) : bool :=
  match p with
  | B_value | B_publish | B_list | B_loop _ | B_called _ _ => true
  | _ => false
  end.

(** Whether the publish has set [returned]. *)
Definition published_B (p : PhaseB) : bool :=
  match p with B_list | B_loop _ | B_called _ _ | B_end => true | _ => false end.

(** The calls of [h.resume()] that are still to come: the one the suspend
    owes until it has resumed [h] or put it in the list, and those of the
    publish for the waiters it has not gone through yet. *)
Definition owed_A (p : PhaseA) : nat :=
  match p with A_called | A_unlock | A_end => 0 | _ => 1 end.

Definition owed_B (h : coroutine_handle) (p : PhaseB) (waiters : list coroutine_handle) : nat :=
  match p with
  | B_loop hs | B_called _ hs => occurrences h hs
  | B_end => 0
  | _ => occurrences h waiters
  end.

(** What holds of the world at every point of a race that started in a
    world with log [log0] in which [h] was registered [before] times. *)
Definition race_invariant {T} (c : nat) (h : coroutine_handle) (log0 : list Event)
    (before : nat) (pa : PhaseA) (pb : PhaseB) (w : World T) : Prop :=
  ∃ hd evs,
    frames w !! c = Some hd ∧
    trace w = log0 ++ evs ∧
    mut hd = holds_A pa || holds_B pb ∧
    holds_A pa && holds_B pb = false ∧
    returned hd = published_B pb ∧
    (∀ r, pa = A_branch r → r = returned hd) ∧
    occurrences h (resumed evs) + owed_A pa + owed_B h pb (to_resume hd) = before + 1.

(** * Proofs *)

(** ** Event logs *)

Lemma resumed_app evs1 evs2 : resumed (evs1 ++ evs2) = resumed evs1 ++ resumed evs2.
Proof.
  induction evs1 as [|e evs1 IH]; [done|].
  destruct e; simpl; by rewrite ?IH.
Qed.

Lemma occurrences_app h hs1 hs2 :
  occurrences h (hs1 ++ hs2) = occurrences h hs1 + occurrences h hs2.
Proof. unfold occurrences. by rewrite filter_app, length_app. Qed.

Lemma occurrences_singleton h : occurrences h [h] = 1.
Proof. unfold occurrences. rewrite filter_cons. by case_decide. Qed.

Section Proofs.
Context {T : Type}.
Implicit Types (w : World T) (hd : CoroutineRetvalHolder T) (c : nat).
Implicit Types (h : coroutine_handle) (a : CoroutineAwaitResume T) (t : Task).
Implicit Types (k : coroutine_handle → M T unit).

Lemma events_since_app w (frs : gmap nat (CoroutineRetvalHolder T)) evs ex :
  events_since (length (trace w)) (mkWorld frs (trace w ++ evs) ex) = evs.
Proof. cbv [events_since trace]. by rewrite drop_app_length. Qed.

(** ** The monad *)

Lemma bind_assoc {A B C} (m : M T A) (f : A → M T B) (g : B → M T C) w :
  ((m ≫= f) ≫= g) w = (m ≫= λ x, f x ≫= g) w.
Proof. unfold mbind, M_bind, bind. by destruct (m w). Qed.

Lemma bind_Done {A B} (m : M T A) (f : A → M T B) w b w' :
  (m ≫= f) w = Done b w' → ∃ x w1, m w = Done x w1 ∧ f x w1 = Done b w'.
Proof. unfold mbind, M_bind, bind. destruct (m w) as [x w1| | |]; [eauto|done..]. Qed.

Lemma preserves_ret {A} (R : World T → World T → Prop) `{!Reflexive R} (x : A) :
  preserves R (ret x).
Proof. intros w y w' H. injection H as _ <-. reflexivity. Qed.

Lemma preserves_bind {A B} (R : World T → World T → Prop) `{!Transitive R}
    (m : M T A) (f : A → M T B) :
  preserves R m → (∀ x, preserves R (f x)) → preserves R (m ≫= f).
Proof.
  intros Hm Hf w y w' H. apply bind_Done in H as (x & w1 & H1 & H2).
  etrans; [by eapply Hm | by eapply Hf].
Qed.

Lemma preserves_resume (R : World T → World T → Prop) `{!Transitive R} k h :
  preserves R (emit (EvResume h)) → continuations_keep R k → preserves R (resume k h).
Proof.
  intros He Hk. apply preserves_bind; [done|apply He|].
  intros [] w [] w' H. by eapply Hk.
Qed.

Lemma preserves_for_each (R : World T → World T → Prop) `{!PreOrder R}
    hs (body : coroutine_handle → M T unit) :
  (∀ h, preserves R (body h)) → preserves R (for_each hs body).
Proof.
  intros Hb. induction hs as [|h hs IH]; simpl.
  - intros w [] w' H. injection H as <-. reflexivity.
  - apply preserves_bind; [apply _|apply Hb|done].
Qed.

(** Symbolic execution of a member function on a world whose relevant
    lookups are known, up to the calls of coroutines. *)
Ltac exec :=
  unfold return_value, return_void, lock_guard, lock, unlock, set_value, set_returned,
    get_returned, get_value, get_to_resume, push_back, destroy, deref;
  unfold mbind, M_bind, bind, mret, M_ret, load, store, emit, count, free, ret,
    terminate, blocked, undefined;
  repeat first
    [ rewrite lookup_insert_eq
    | match goal with
      | E : frames ?w !! ?c = _ |- context [frames ?w !! ?c] => rewrite E
      | E : mut ?hd = _ |- context [mut ?hd] => rewrite E
      | E : returned ?hd = _ |- context [returned ?hd] => rewrite E
      | E : is_immediate ?a = _ |- context [is_immediate ?a] => rewrite E
      | E : pself ?a = _ |- context [pself ?a] => rewrite E
      | E : to_resume ?hd = _ |- context [to_resume ?hd] => rewrite E
      end
    | progress cbn [frames trace executor mut returned value to_resume
                    negb pself is_immediate immediate_value handle for_each]
    | progress unfold mbind, M_bind, bind, mret, M_ret, ret ].

Ltac tidy := rewrite ?insert_insert_eq, <- ?app_assoc; simpl.

(** ** What the member functions compute *)

(** A publish up to the loop over the waiters: the mutex is taken, the
    members are written and the waiter list is read; the loop and the
    release of the mutex are still to come. *)
Lemma return_value_spec k w c hd v :
  frames w !! c = Some hd → mut hd = false →
  return_value k c v w =
  (for_each (to_resume hd) (resume k) ;; unlock c)
    (mkWorld (<[c := mkHolder true true v (to_resume hd)]> (frames w))
             (trace w ++ [EvLock c; EvWrite c value_field; EvWrite c returned_field;
                          EvRead c to_resume_field])
             (executor w)).
Proof.
  intros E Hm. exec. tidy.
  match goal with |- context [for_each ?hs ?b ?w1] => destruct (for_each hs b w1) as [[] ?| | |] end;
    try reflexivity.
  match goal with |- context [frames ?w0 !! c] => by destruct (frames w0 !! c) end.
Qed.

Lemma return_void_spec k w c hd :
  frames w !! c = Some hd → mut hd = false →
  return_void k c w =
  (for_each (to_resume hd) (resume k) ;; unlock c)
    (mkWorld (<[c := mkHolder true true (value hd) (to_resume hd)]> (frames w))
             (trace w ++ [EvLock c; EvWrite c returned_field; EvRead c to_resume_field])
             (executor w)).
Proof.
  intros E Hm. exec. tidy.
  match goal with |- context [for_each ?hs ?b ?w1] => destruct (for_each hs b w1) as [[] ?| | |] end;
    try reflexivity.
  match goal with |- context [frames ?w0 !! c] => by destruct (frames w0 !! c) end.
Qed.

Lemma Task_await_suspend_pending k w c hd h :
  frames w !! c = Some hd → mut hd = false → returned hd = false →
  Task_await_suspend k (mkTask (Some c)) h w =
  Done tt (mkWorld (<[c := mkHolder false false (value hd) (to_resume hd ++ [h])]> (frames w))
                   (trace w ++ [EvLock c; EvRead c returned_field;
                                EvWrite c to_resume_field; EvUnlock c])
                   (executor w)).
Proof. intros E Hm Hr. unfold Task_await_suspend. exec. by tidy. Qed.

(** A suspend that finds the holder returned, up to the call of the
    coroutine: the mutex is held, the handle is not in the list. *)
Lemma Task_await_suspend_completed k w c hd h :
  frames w !! c = Some hd → mut hd = false → returned hd = true →
  Task_await_suspend k (mkTask (Some c)) h w =
  (k h ;; unlock c)
    (mkWorld (<[c := mkHolder true true (value hd) (to_resume hd)]> (frames w))
             (trace w ++ [EvLock c; EvRead c returned_field; EvResume h])
             (executor w)).
Proof.
  intros E Hm Hr. unfold Task_await_suspend, resume. exec. tidy.
  match goal with |- context [k h ?w1] => destruct (k h w1) as [[] ?| | |] end;
    try reflexivity.
  match goal with |- context [frames ?w0 !! c] => by destruct (frames w0 !! c) end.
Qed.

(** On a deferred awaitable [Async::await_suspend] is the code of
    [Task::await_suspend]. *)
Lemma Async_await_suspend_deferred k a c h w :
  is_immediate a = false → pself a = Some c →
  Async_await_suspend k a h w = Task_await_suspend k (mkTask (Some c)) h w.
Proof. intros Hi Hp. unfold Async_await_suspend, Task_await_suspend. by exec. Qed.

Lemma unlock_spec w c hd :
  frames w !! c = Some hd →
  unlock c w =
  Done tt (mkWorld (<[c := mkHolder false (returned hd) (value hd) (to_resume hd)]> (frames w))
                   (trace w ++ [EvUnlock c]) (executor w)).
Proof. intros E. by exec. Qed.

Lemma insert_unlocked_id w c hd :
  frames w !! c = Some hd → mut hd = false →
  <[c := mkHolder false (returned hd) (value hd) (to_resume hd)]> (frames w) = frames w.
Proof. intros E Hm. apply insert_id. rewrite E. f_equal. destruct hd; simpl in *; by subst. Qed.

(** ** What a completed operation has gone through *)

Lemma unlock_Done w c w' :
  unlock c w = Done tt w' →
  ∃ hd, frames w !! c = Some hd ∧
        w' = mkWorld (<[c := mkHolder false (returned hd) (value hd) (to_resume hd)]>
                        (frames w))
                     (trace w ++ [EvUnlock c]) (executor w).
Proof.
  unfold unlock. exec. destruct (frames w !! c) as [hd|] eqn:E; [|done].
  intros H. injection H as <-. eauto.
Qed.

Lemma return_value_Done k w c v w' :
  return_value k c v w = Done tt w' →
  ∃ hd w2, frames w !! c = Some hd ∧ mut hd = false ∧
    for_each (to_resume hd) (resume k)
      (mkWorld (<[c := mkHolder true true v (to_resume hd)]> (frames w))
               (trace w ++ [EvLock c; EvWrite c value_field; EvWrite c returned_field;
                            EvRead c to_resume_field])
               (executor w)) = Done tt w2 ∧
    unlock c w2 = Done tt w'.
Proof.
  intros H. destruct (frames w !! c) as [hd|] eqn:E;
    [|revert H; by exec].
  destruct (mut hd) eqn:Hm; [revert H; by exec|].
  rewrite (return_value_spec k w c hd v E Hm) in H.
  apply bind_Done in H as ([] & w2 & Hloop & Hunlock). eauto 10.
Qed.

Lemma return_void_Done k w c w' :
  return_void k c w = Done tt w' →
  ∃ hd w2, frames w !! c = Some hd ∧ mut hd = false ∧
    for_each (to_resume hd) (resume k)
      (mkWorld (<[c := mkHolder true true (value hd) (to_resume hd)]> (frames w))
               (trace w ++ [EvLock c; EvWrite c returned_field; EvRead c to_resume_field])
               (executor w)) = Done tt w2 ∧
    unlock c w2 = Done tt w'.
Proof.
  intros H. destruct (frames w !! c) as [hd|] eqn:E;
    [|revert H; by exec].
  destruct (mut hd) eqn:Hm; [revert H; by exec|].
  rewrite (return_void_spec k w c hd E Hm) in H.
  apply bind_Done in H as ([] & w2 & Hloop & Hunlock). eauto 10.
Qed.

Lemma Task_await_suspend_Done k t h w w' :
  Task_await_suspend k t h w = Done tt w' →
  ∃ c hd, handle t = Some c ∧ frames w !! c = Some hd ∧ mut hd = false ∧
    ((returned hd = false ∧
      w' = mkWorld (<[c := mkHolder false false (value hd) (to_resume hd ++ [h])]> (frames w))
                   (trace w ++ [EvLock c; EvRead c returned_field;
                                EvWrite c to_resume_field; EvUnlock c])
                   (executor w)) ∨
     (returned hd = true ∧
      ∃ w2, k h (mkWorld (<[c := mkHolder true true (value hd) (to_resume hd)]> (frames w))
                         (trace w ++ [EvLock c; EvRead c returned_field; EvResume h])
                         (executor w)) = Done tt w2 ∧
            unlock c w2 = Done tt w')).
Proof.
  intros H. destruct t as [[c|]]; [|revert H; unfold Task_await_suspend; by exec].
  destruct (frames w !! c) as [hd|] eqn:E;
    [|revert H; unfold Task_await_suspend; by exec].
  destruct (mut hd) eqn:Hm; [revert H; unfold Task_await_suspend; by exec|].
  exists c, hd. repeat split; try done.
  destruct (returned hd) eqn:Hr.
  - right. split; [done|].
    rewrite (Task_await_suspend_completed k w c hd h E Hm Hr) in H.
    apply bind_Done in H as ([] & w2 & Hk & Hunlock). eauto.
  - left. split; [done|].
    rewrite (Task_await_suspend_pending k w c hd h E Hm Hr) in H. by injection H.
Qed.

Lemma Async_await_suspend_Done k a h w w' :
  Async_await_suspend k a h w = Done tt w' →
  is_immediate a = false ∧ Task_await_suspend k (mkTask (pself a)) h w = Done tt w'.
Proof.
  intros H. destruct (is_immediate a) eqn:Hi;
    [revert H; unfold Async_await_suspend; by exec|].
  split; [done|]. destruct (pself a) as [c|] eqn:Hp.
  - by rewrite <- (Async_await_suspend_deferred k a c h w Hi Hp).
  - revert H; unfold Async_await_suspend; by exec.
Qed.

(** ** Relations that every operation keeps *)

Lemma run_ops_preserves (R : World T → World T → Prop) `{!PreOrder R} k
    (TELEMETRY : bool) (os : list (Op T)) :
  (∀ o, preserves R (run_op k TELEMETRY o)) → preserves R (run_ops k TELEMETRY os).
Proof.
  intros Ho. induction os as [|o os IH]; simpl.
  - intros w [] w' H. injection H as <-. reflexivity.
  - apply preserves_bind; [apply _|apply Ho|done].
Qed.

(** The operations that call coroutines keep a relation that the coroutines
    keep, if the relation allows what those operations do themselves: log a
    resumption, replace a holder by one with the same waiters that has
    returned if the old one had, and append a waiter to a holder that has
    not returned. *)
Section Resuming.
Context (R : World T → World T → Prop) `{!PreOrder R} (k : coroutine_handle → M T unit).
Context (target : nat → Prop).
Hypothesis R_update : ∀ w c hd hd' evs,
  target c → frames w !! c = Some hd →
  (returned hd = true → returned hd' = true) → to_resume hd' = to_resume hd →
  EvDestroy c ∉ evs →
  R w (mkWorld (<[c := hd']> (frames w)) (trace w ++ evs) (executor w)).
Hypothesis R_push : ∀ w c hd hd' evs,
  target c → frames w !! c = Some hd → returned hd = false → returned hd' = false →
  to_resume hd' = to_resume hd ++ drop (length (to_resume hd)) (to_resume hd') →
  EvDestroy c ∉ evs →
  R w (mkWorld (<[c := hd']> (frames w)) (trace w ++ evs) (executor w)).
Hypothesis R_resume : ∀ h, preserves R (emit (EvResume h)).
Hypothesis R_k : continuations_keep R k.

Ltac not_destroyed :=
  let H := fresh in
  intros H; repeat (apply elem_of_cons in H as [H|H]; [discriminate H|]);
  by apply elem_of_nil in H.

Lemma unlock_keeps c : target c → preserves R (unlock c).
Proof.
  intros Hc w [] w' H. apply unlock_Done in H as (hd & E & ->).
  apply R_update with hd; [done|done|done|done|not_destroyed].
Qed.

Lemma loop_keeps hs : preserves R (for_each hs (resume k)).
Proof.
  apply preserves_for_each; [apply _|]. intros h.
  apply preserves_resume; [apply _ | apply R_resume | apply R_k].
Qed.

Lemma return_value_keeps c v : target c → preserves R (return_value k c v).
Proof.
  intros Hc w [] w' H.
  apply return_value_Done in H as (hd & w2 & E & Hm & Hloop & Hunlock).
  etrans; [|etrans; [by eapply loop_keeps | by eapply unlock_keeps]].
  apply R_update with hd; [done|done|done|done|not_destroyed].
Qed.

Lemma return_void_keeps c : target c → preserves R (return_void k c).
Proof.
  intros Hc w [] w' H.
  apply return_void_Done in H as (hd & w2 & E & Hm & Hloop & Hunlock).
  etrans; [|etrans; [by eapply loop_keeps | by eapply unlock_keeps]].
  apply R_update with hd; [done|done|done|done|not_destroyed].
Qed.

Lemma Task_await_suspend_keeps t h :
  (∀ c, handle t = Some c → target c) → preserves R (Task_await_suspend k t h).
Proof.
  intros Hc w [] w' H.
  apply Task_await_suspend_Done in H
    as (c & hd & Ht & E & Hm & [[Hr ->] | (Hr & w2 & Hk & Hunlock)]).
  - apply R_push with hd; [by apply Hc|done|done|done| |not_destroyed].
    simpl. by rewrite drop_app_length.
  - etrans; [|etrans; [by eapply R_k | eapply unlock_keeps; [by apply Hc|done]]].
    apply R_update with hd; [by apply Hc|done|done|done|not_destroyed].
Qed.

Lemma Async_await_suspend_keeps a h :
  (∀ c, pself a = Some c → target c) → preserves R (Async_await_suspend k a h).
Proof.
  intros Hc w [] w' H. apply Async_await_suspend_Done in H as [_ H].
  by eapply (Task_await_suspend_keeps (mkTask (pself a)) h).
Qed.

End Resuming.

(** The operations that call no coroutine, case by case. *)
Ltac plain_op_cases o w TELEMETRY Hplain :=
  destruct o as [a|a h|a|c0 v0|c0|t|t h|t|t|i|c0];
  try discriminate Hplain; clear Hplain;
  unfold run_op, Async_await_ready, CoroutineAwaitResume_await_resume, Task_await_ready,
    Task_await_resume, Task_destructor, get_return_object, final_suspend_point,
    final_suspend;
  try destruct a as [[c0|] iv [|]]; try destruct t as [[c0|]];
  destruct TELEMETRY; exec; try exact I;
  try (destruct (frames w !! c0) as [[[|] [|] ? ?]|] eqn:E; exec; try exact I).

Lemma run_op_preserves (R : World T → World T → Prop) `{!PreOrder R} k
    (TELEMETRY : bool) (o : Op T) :
  (resumes o = false →
   ∀ w, match run_op k TELEMETRY o w with Done _ w' => R w w' | _ => True end) →
  (∀ a h, o = OpAsyncAwaitSuspend a h → preserves R (Async_await_suspend k a h)) →
  (∀ c v, o = OpReturnValue c v → preserves R (return_value k c v)) →
  (∀ c, o = OpReturnVoid c → preserves R (return_void k c)) →
  (∀ t h, o = OpTaskAwaitSuspend t h → preserves R (Task_await_suspend k t h)) →
  preserves R (run_op k TELEMETRY o).
Proof.
  intros Hplain Hasync Hvalue Hvoid Htask.
  destruct (resumes o) eqn:Hres.
  - destruct o; try discriminate Hres; unfold run_op;
      (apply preserves_bind; [apply _ | | intros; apply preserves_ret; apply _]);
      eauto.
  - intros w x w' H. specialize (Hplain eq_refl w). by rewrite H in Hplain.
Qed.

(** *** A holder that has returned stays returned, with its waiters *)

Global Instance evolves_PreOrder c : PreOrder (evolves (T := T) c).
Proof.
  split.
  - intros w. exists []. rewrite app_nil_r. split; [done|]. right. eauto.
  - intros w1 w2 w3 (evs1 & Ht1 & H1) (evs2 & Ht2 & H2).
    exists (evs1 ++ evs2). split; [by rewrite Ht2, Ht1, app_assoc|].
    destruct H1 as [H1|H1]; [left; apply elem_of_app; by left|].
    destruct H2 as [H2|H2]; [left; apply elem_of_app; by right|].
    right. intros hd E Hr.
    destruct (H1 hd E Hr) as (hd2 & E2 & Hr2 & Hw2).
    destruct (H2 hd2 E2 Hr2) as (hd3 & E3 & Hr3 & Hw3).
    exists hd3. repeat split; [done|done|congruence].
Qed.

Ltac solve_evolves c :=
  unfold evolves; cbn [frames trace]; rewrite <- ?app_assoc;
  eexists; split; [ reflexivity || (symmetry; apply app_nil_r) | ];
  lazymatch goal with
  | E : frames _ !! ?c0 = _ |- _ =>
      destruct (decide (c0 = c)) as [Heq|Hne];
      [ subst c;
        (left; set_solver) ||
        (right; intros hd Ehd Hr; rewrite E in Ehd; simplify_eq; simpl in *; try done;
         rewrite ?insert_insert_eq, ?lookup_insert_eq; eauto)
      | right; intros hd Ehd Hr;
        rewrite ?lookup_insert_ne, ?lookup_delete_ne by done; eauto ]
  | _ => right; intros hd Ehd Hr; eauto
  end.

Lemma plain_op_evolves_aux k (TELEMETRY : bool) (o : Op T) c :
  resumes o = false →
  ∀ w, match run_op k TELEMETRY o w with
       | Done _ w' => evolves c w w'
       | _ => True
       end.
Proof.
  intros Hplain w. plain_op_cases o w TELEMETRY Hplain;
    solve [solve_evolves c] ||
    (assert (frames w !! fresh (dom (frames w)) = None) as E
       by apply not_elem_of_dom, is_fresh;
     solve_evolves c).
Qed.

Lemma evolves_update c w c0 hd hd' evs :
  frames w !! c0 = Some hd →
  (returned hd = true → returned hd' = true) → to_resume hd' = to_resume hd →
  evolves c w (mkWorld (<[c0 := hd']> (frames w)) (trace w ++ evs) (executor w)).
Proof.
  intros E Hr Hw. exists evs. split; [done|]. right. intros hd1 E1 Hr1. cbn [frames].
  destruct (decide (c0 = c)) as [->|Hne].
  - rewrite lookup_insert_eq. rewrite E in E1. injection E1 as ->. eauto.
  - rewrite lookup_insert_ne by done. eauto.
Qed.

Lemma evolves_push c w c0 hd hd' evs :
  frames w !! c0 = Some hd → returned hd = false →
  evolves c w (mkWorld (<[c0 := hd']> (frames w)) (trace w ++ evs) (executor w)).
Proof.
  intros E Hr. exists evs. split; [done|]. right. intros hd1 E1 Hr1. cbn [frames].
  destruct (decide (c0 = c)) as [->|Hne].
  - rewrite E in E1. injection E1 as ->. congruence.
  - rewrite lookup_insert_ne by done. eauto.
Qed.

Lemma evolves_emit c e : preserves (evolves (T := T) c) (emit e).
Proof.
  intros w [] w' H. injection H as <-. exists [e]. split; [done|]. right. eauto.
Qed.

Lemma run_op_evolves k (TELEMETRY : bool) (o : Op T) c :
  continuations_keep (evolves c) k → preserves (evolves c) (run_op k TELEMETRY o).
Proof.
  intros Hk. apply run_op_preserves; [apply _|by apply plain_op_evolves_aux|..]; intros;
    [ eapply Async_await_suspend_keeps with (target := λ _, True)
    | eapply return_value_keeps with (target := λ _, True)
    | eapply return_void_keeps with (target := λ _, True)
    | eapply Task_await_suspend_keeps with (target := λ _, True) ];
    first [ exact Hk | apply _ | by intros; apply evolves_emit
          | by intros; eapply evolves_update | by intros; eapply evolves_push | done ].
Qed.

Lemma run_ops_evolves k (TELEMETRY : bool) (os : list (Op T)) c :
  continuations_keep (evolves c) k → preserves (evolves c) (run_ops k TELEMETRY os).
Proof. intros Hk. apply run_ops_preserves; [apply _|]. intros o. by apply run_op_evolves. Qed.

(** *** The waiters of a holder stay in its list *)

Global Instance waiters_kept_PreOrder c : PreOrder (waiters_kept (T := T) c).
Proof.
  split.
  - intros w. exists []. rewrite app_nil_r. split; [done|]. right. eauto.
  - intros w1 w2 w3 (evs1 & Ht1 & H1) (evs2 & Ht2 & H2).
    exists (evs1 ++ evs2). split; [by rewrite Ht2, Ht1, app_assoc|].
    destruct H1 as [H1|H1]; [left; apply elem_of_app; by left|].
    destruct H2 as [H2|H2]; [left; apply elem_of_app; by right|].
    right. intros hd E.
    destruct (H1 hd E) as (hd2 & E2 & Hp2).
    destruct (H2 hd2 E2) as (hd3 & E3 & Hp3).
    exists hd3. split; [done|]. by etrans.
Qed.

Ltac solve_kept c :=
  unfold waiters_kept; cbn [frames trace]; rewrite <- ?app_assoc;
  eexists; split; [ reflexivity || (symmetry; apply app_nil_r) | ];
  lazymatch goal with
  | E : frames _ !! ?c0 = _ |- _ =>
      destruct (decide (c0 = c)) as [Heq|Hne];
      [ subst c;
        (left; set_solver) ||
        (right; intros hd Ehd; rewrite E in Ehd; simplify_eq;
         rewrite ?insert_insert_eq, ?lookup_insert_eq;
         try (eexists;
              split; [ first [reflexivity | eassumption]
                     | cbn [to_resume]; first [reflexivity | by apply prefix_app_r] ]))
      | right; intros hd Ehd;
        rewrite ?lookup_insert_ne, ?lookup_delete_ne by done;
        eexists; split; [eassumption|reflexivity] ]
  | _ => right; intros hd Ehd; eexists; split; [eassumption|reflexivity]
  end.

Lemma plain_op_waiters_kept_aux k (TELEMETRY : bool) (o : Op T) c :
  resumes o = false →
  ∀ w, match run_op k TELEMETRY o w with
       | Done _ w' => waiters_kept c w w'
       | _ => True
       end.
Proof.
  intros Hplain w. plain_op_cases o w TELEMETRY Hplain;
    solve [solve_kept c] ||
    (assert (frames w !! fresh (dom (frames w)) = None) as E
       by apply not_elem_of_dom, is_fresh;
     solve_kept c).
Qed.

Lemma waiters_kept_update c w c0 hd hd' evs :
  frames w !! c0 = Some hd → to_resume hd `prefix_of` to_resume hd' →
  waiters_kept c w (mkWorld (<[c0 := hd']> (frames w)) (trace w ++ evs) (executor w)).
Proof.
  intros E Hw. exists evs. split; [done|]. right. intros hd1 E1. cbn [frames].
  destruct (decide (c0 = c)) as [->|Hne].
  - rewrite lookup_insert_eq. rewrite E in E1. injection E1 as ->. eauto.
  - rewrite lookup_insert_ne by done. eauto.
Qed.

Lemma waiters_kept_emit c e : preserves (waiters_kept (T := T) c) (emit e).
Proof.
  intros w [] w' H. injection H as <-. exists [e]. split; [done|]. right. eauto.
Qed.

Lemma run_op_waiters_kept k (TELEMETRY : bool) (o : Op T) c :
  continuations_keep (waiters_kept c) k →
  preserves (waiters_kept c) (run_op k TELEMETRY o).
Proof.
  intros Hk.
  apply run_op_preserves; [apply _|by apply plain_op_waiters_kept_aux|..]; intros;
    [ eapply Async_await_suspend_keeps with (target := λ _, True)
    | eapply return_value_keeps with (target := λ _, True)
    | eapply return_void_keeps with (target := λ _, True)
    | eapply Task_await_suspend_keeps with (target := λ _, True) ];
    first [ exact Hk | apply _ | by intros; apply waiters_kept_emit
          | (intros; eapply waiters_kept_update; [eassumption|];
             match goal with
             | H : to_resume _ = to_resume _ |- _ => by rewrite H
             | H : to_resume _ = to_resume _ ++ _ |- _ => rewrite H; by apply prefix_app_r
             end)
          | done ].
Qed.

Lemma run_ops_waiters_kept k (TELEMETRY : bool) (os : list (Op T)) c :
  continuations_keep (waiters_kept c) k →
  preserves (waiters_kept c) (run_ops k TELEMETRY os).
Proof.
  intros Hk. apply run_ops_preserves; [apply _|]. intros o. by apply run_op_waiters_kept.
Qed.

(** *** The counters *)

Global Instance counters_kept_PreOrder : PreOrder (counters_kept (T := T)).
Proof. split; [done|]. intros w1 w2 w3 H1 H2. unfold counters_kept in *. congruence. Qed.

Lemma plain_op_counters_aux k (TELEMETRY : bool) (o : Op T) :
  TELEMETRY = false ∨ is_await_ready o = false →
  resumes o = false →
  ∀ w, match run_op k TELEMETRY o w with
       | Done _ w' => counters_kept w w'
       | _ => True
       end.
Proof.
  intros Hor Hplain w.
  assert (TELEMETRY = true → is_await_ready o = false) as Hno
    by (intros ->; by destruct Hor).
  clear Hor.
  destruct o as [a|a h|a|c0 v0|c0|t|t h|t|t|i|c0]; try discriminate Hplain; clear Hplain;
    unfold run_op, Async_await_ready, CoroutineAwaitResume_await_resume, Task_await_ready,
      Task_await_resume, Task_destructor, get_return_object, final_suspend_point,
      final_suspend;
    try destruct a as [[c0|] iv [|]]; try destruct t as [[c0|]];
    destruct TELEMETRY; try (by specialize (Hno eq_refl));
    exec; try done;
    (destruct (frames w !! c0) as [[[|] [|] ? ?]|] eqn:E; exec; done).
Qed.

Lemma counters_kept_emit e : preserves (counters_kept (T := T)) (emit e).
Proof. intros w [] w' H. by injection H as <-. Qed.

Lemma run_op_counters_kept k (TELEMETRY : bool) (o : Op T) :
  TELEMETRY = false ∨ is_await_ready o = false →
  continuations_keep counters_kept k →
  preserves counters_kept (run_op k TELEMETRY o).
Proof.
  intros Hor Hk.
  apply run_op_preserves; [apply _|by apply plain_op_counters_aux|..]; intros;
    [ eapply Async_await_suspend_keeps with (target := λ _, True)
    | eapply return_value_keeps with (target := λ _, True)
    | eapply return_void_keeps with (target := λ _, True)
    | eapply Task_await_suspend_keeps with (target := λ _, True) ];
    first [ exact Hk | apply _ | done | by intros; unfold counters_kept
          | by intros; apply counters_kept_emit ].
Qed.

(** *** The frames an operation does not work on *)

Global Instance frame_kept_PreOrder c : PreOrder (frame_kept (T := T) c).
Proof. split; [done|]. intros w1 w2 w3 H1 H2. unfold frame_kept in *. congruence. Qed.

Lemma plain_op_frame_kept_aux k (TELEMETRY : bool) (o : Op T) c :
  resumes o = false →
  ∀ w, match run_op k TELEMETRY o w with
       | Done _ w' => op_target o w ≠ Some c → frame_kept c w w'
       | _ => True
       end.
Proof.
  intros Hplain w. plain_op_cases o w TELEMETRY Hplain;
    unfold frame_kept; cbn [op_target is_immediate pself handle frames]; intros Hne;
    rewrite ?lookup_insert_ne, ?lookup_delete_ne by congruence; done.
Qed.

Lemma frame_kept_update c w c0 hd' evs :
  c0 ≠ c →
  frame_kept c w (mkWorld (<[c0 := hd']> (frames w)) (trace w ++ evs) (executor w)).
Proof. intros Hne. unfold frame_kept. cbn [frames]. by rewrite lookup_insert_ne. Qed.

(** *** The mutexes *)

Global Instance no_new_lock_PreOrder : PreOrder (no_new_lock (T := T)).
Proof.
  split; [intros w c hd; eauto|].
  intros w1 w2 w3 H1 H2 c hd3 E3 Hm3.
  destruct (H2 c hd3 E3 Hm3) as (hd2 & E2 & Hm2). eauto.
Qed.

Ltac solve_no_new_lock :=
  let c' := fresh "c'" in let hd' := fresh "hd'" in
  let E' := fresh "E'" in let Hm' := fresh "Hm'" in
  intros c' hd' E' Hm'; cbn [frames] in E';
  first
    [ by eauto
    | lazymatch goal with
      | E : frames _ !! ?c0 = _ |- _ =>
          destruct (decide (c0 = c')) as [Heq|Hne];
          [ subst c';
            rewrite ?insert_insert_eq, ?lookup_insert_eq, ?lookup_delete_eq in E';
            by simplify_eq
          | rewrite ?lookup_insert_ne, ?lookup_delete_ne in E' by done; by eauto ]
      end ].

Lemma plain_op_no_new_lock_aux k (TELEMETRY : bool) (o : Op T) :
  resumes o = false →
  ∀ w, match run_op k TELEMETRY o w with
       | Done _ w' => no_new_lock w w'
       | _ => True
       end.
Proof.
  intros Hplain w. plain_op_cases o w TELEMETRY Hplain;
    solve [solve_no_new_lock] ||
    (assert (frames w !! fresh (dom (frames w)) = None) as E
       by apply not_elem_of_dom, is_fresh;
     solve_no_new_lock).
Qed.

(** A critical section that holds the mutex of [c] around something that
    takes no new lock takes no new lock. *)
Lemma no_new_lock_critical w c hd hd1 evs w2 w' :
  frames w !! c = Some hd →
  no_new_lock (mkWorld (<[c := hd1]> (frames w)) (trace w ++ evs) (executor w)) w2 →
  unlock c w2 = Done tt w' →
  no_new_lock w w'.
Proof.
  intros E H12 Hunlock. apply unlock_Done in Hunlock as (hd2 & E2 & ->).
  intros c' hd' E' Hm'. cbn [frames] in E'.
  destruct (decide (c = c')) as [<-|Hne].
  - rewrite lookup_insert_eq in E'. by simplify_eq.
  - rewrite lookup_insert_ne in E' by done.
    destruct (H12 c' hd' E' Hm') as (hd3 & E3 & Hm3). cbn [frames] in E3.
    rewrite lookup_insert_ne in E3 by done. eauto.
Qed.

Lemma no_new_lock_emit e : preserves (no_new_lock (T := T)) (emit e).
Proof. intros w [] w' H. injection H as <-. intros c hd. eauto. Qed.

Lemma run_op_no_new_lock k (TELEMETRY : bool) (o : Op T) :
  continuations_keep no_new_lock k → preserves no_new_lock (run_op k TELEMETRY o).
Proof.
  intros Hk.
  assert (∀ hs, preserves no_new_lock (for_each hs (resume k))) as Hloop.
  { intros hs. apply preserves_for_each; [apply _|]. intros h.
    apply preserves_resume; [apply _|apply no_new_lock_emit|done]. }
  assert (∀ t h, preserves no_new_lock (Task_await_suspend k t h)) as Htask.
  { intros t h w [] w' H.
    apply Task_await_suspend_Done in H
      as (c & hd & Ht & E & Hm & [[Hr ->] | (Hr & w2 & Hk2 & Hunlock)]).
    - solve_no_new_lock.
    - eapply (no_new_lock_critical w c hd _ _ w2 w' E); [|exact Hunlock].
      eapply Hk. exact Hk2. }
  apply run_op_preserves; [apply _|by apply plain_op_no_new_lock_aux|..]; intros.
  - intros w [] w' Hdone. apply Async_await_suspend_Done in Hdone as [_ Hdone].
    by eapply Htask.
  - intros w [] w' Hdone.
    apply return_value_Done in Hdone as (hd & w2 & E & Hm & Hrun & Hunlock).
    eapply (no_new_lock_critical w c hd _ _ w2 w' E); [|exact Hunlock].
    eapply Hloop. exact Hrun.
  - intros w [] w' Hdone.
    apply return_void_Done in Hdone as (hd & w2 & E & Hm & Hrun & Hunlock).
    eapply (no_new_lock_critical w c hd _ _ w2 w' E); [|exact Hunlock].
    eapply Hloop. exact Hrun.
  - apply Htask.
Qed.

Lemma no_new_lock_quiescent w w' : quiescent w → no_new_lock w w' → quiescent w'.
Proof.
  intros Hq Hn c hd' E'. destruct (mut hd') eqn:Hm'; [|done].
  destruct (Hn c hd' E' Hm') as (hd & E & Hm).
  specialize (Hq c hd E). simpl in Hq. congruence.
Qed.

(** *** Telemetry *)

Lemma oblivious_bind {A B} (m1 m2 : M T A) (f1 f2 : A → M T B) :
  oblivious m1 m2 → (∀ x, oblivious (f1 x) (f2 x)) →
  oblivious (m1 ≫= f1) (m2 ≫= f2).
Proof.
  intros Hm Hf w s1 s2. unfold mbind, M_bind, bind.
  specialize (Hm w s1 s2).
  destruct (m1 (with_stats s1 w)) as [x1 w1|w1| |],
           (m2 (with_stats s2 w)) as [x2 w2|w2| |]; simpl in Hm; try done.
  2: { injection Hm as Efr Etr. simpl. unfold forget_stats. by rewrite Efr, Etr. }
  destruct w1 as [frs1 tr1 ex1], w2 as [frs2 tr2 ex2].
  injection Hm as -> -> ->.
  apply (Hf x2 (mkWorld frs2 tr2 ex1) ex1 ex2).
Qed.

Lemma oblivious_plain {A} (m : M T A) :
  (∀ w (s : ExecutorStats),
     forget_stats_outcome (m (with_stats s w)) = forget_stats_outcome (m w)) →
  oblivious m m.
Proof. intros H w s1 s2. by rewrite !H. Qed.

Lemma oblivious_emit e : oblivious (T := T) (emit e) (emit e).
Proof. by intros w s1 s2. Qed.

Lemma oblivious_ret {A} (x : A) : oblivious (T := T) (ret x) (ret x).
Proof. by intros w s1 s2. Qed.

Lemma oblivious_unlock c : oblivious (T := T) (unlock c) (unlock c).
Proof.
  intros w s1 s2. unfold with_stats. exec.
  by destruct (frames w !! c).
Qed.

Lemma oblivious_for_each hs (b1 b2 : coroutine_handle → M T unit) :
  (∀ h, oblivious (b1 h) (b2 h)) → oblivious (for_each hs b1) (for_each hs b2).
Proof.
  intros Hb. induction hs as [|h hs IH]; simpl; [apply oblivious_ret|].
  apply oblivious_bind; [apply Hb|done].
Qed.

Lemma oblivious_resume k1 k2 h :
  same_but_counters k1 k2 → oblivious (resume k1 h) (resume k2 h).
Proof.
  intros Hk. apply oblivious_bind; [apply oblivious_emit|]. intros [] w s1 s2. apply Hk.
Qed.

Lemma oblivious_loop_unlock k1 k2 hs c :
  same_but_counters k1 k2 →
  oblivious (for_each hs (resume k1) ;; unlock c) (for_each hs (resume k2) ;; unlock c).
Proof.
  intros Hk. apply oblivious_bind.
  - apply oblivious_for_each. intros h. by apply oblivious_resume.
  - intros []. apply oblivious_unlock.
Qed.

Lemma oblivious_return_value k1 k2 c v :
  same_but_counters k1 k2 → oblivious (return_value k1 c v) (return_value k2 c v).
Proof.
  intros Hk w s1 s2.
  destruct (frames w !! c) as [hd|] eqn:E; [|unfold with_stats; by exec].
  destruct (mut hd) eqn:Hm; [unfold with_stats; by exec|].
  rewrite (return_value_spec k1 (with_stats s1 w) c hd v E Hm),
          (return_value_spec k2 (with_stats s2 w) c hd v E Hm).
  exact (oblivious_loop_unlock k1 k2 (to_resume hd) c Hk
           (mkWorld (<[c := mkHolder true true v (to_resume hd)]> (frames w))
                    (trace w ++ [EvLock c; EvWrite c value_field; EvWrite c returned_field;
                                 EvRead c to_resume_field])
                    (executor w)) s1 s2).
Qed.

Lemma oblivious_return_void k1 k2 c :
  same_but_counters k1 k2 → oblivious (return_void k1 c) (return_void k2 c).
Proof.
  intros Hk w s1 s2.
  destruct (frames w !! c) as [hd|] eqn:E; [|unfold with_stats; by exec].
  destruct (mut hd) eqn:Hm; [unfold with_stats; by exec|].
  rewrite (return_void_spec k1 (with_stats s1 w) c hd E Hm),
          (return_void_spec k2 (with_stats s2 w) c hd E Hm).
  exact (oblivious_loop_unlock k1 k2 (to_resume hd) c Hk
           (mkWorld (<[c := mkHolder true true (value hd) (to_resume hd)]> (frames w))
                    (trace w ++ [EvLock c; EvWrite c returned_field;
                                 EvRead c to_resume_field])
                    (executor w)) s1 s2).
Qed.

Lemma oblivious_Task_await_suspend k1 k2 t h :
  same_but_counters k1 k2 →
  oblivious (Task_await_suspend k1 t h) (Task_await_suspend k2 t h).
Proof.
  intros Hk w s1 s2.
  destruct t as [[c|]]; [|unfold with_stats, Task_await_suspend; by exec].
  destruct (frames w !! c) as [hd|] eqn:E;
    [|unfold with_stats, Task_await_suspend; by exec].
  destruct (mut hd) eqn:Hm; [unfold with_stats, Task_await_suspend; by exec|].
  destruct (returned hd) eqn:Hr.
  - rewrite (Task_await_suspend_completed k1 (with_stats s1 w) c hd h E Hm Hr),
            (Task_await_suspend_completed k2 (with_stats s2 w) c hd h E Hm Hr).
    assert (oblivious (k1 h ;; unlock c) (k2 h ;; unlock c)) as Hob.
    { apply oblivious_bind; [intros w0 r1 r2; apply Hk|]. intros []. apply oblivious_unlock. }
    exact (Hob (mkWorld (<[c := mkHolder true true (value hd) (to_resume hd)]> (frames w))
                        (trace w ++ [EvLock c; EvRead c returned_field; EvResume h])
                        (executor w)) s1 s2).
  - by rewrite (Task_await_suspend_pending k1 (with_stats s1 w) c hd h E Hm Hr),
               (Task_await_suspend_pending k2 (with_stats s2 w) c hd h E Hm Hr).
Qed.

Lemma oblivious_Async_await_suspend k1 k2 a h :
  same_but_counters k1 k2 →
  oblivious (Async_await_suspend k1 a h) (Async_await_suspend k2 a h).
Proof.
  intros Hk w s1 s2.
  destruct (is_immediate a) eqn:Hi; [unfold with_stats, Async_await_suspend; by exec|].
  destruct (pself a) as [c|] eqn:Hp; [|unfold with_stats, Async_await_suspend; by exec].
  rewrite !(Async_await_suspend_deferred _ a c h _ Hi Hp).
  by apply oblivious_Task_await_suspend.
Qed.

Lemma run_op_forget_stats k1 k2 (t1 t2 : bool) (o : Op T) :
  same_but_counters k1 k2 → oblivious (run_op k1 t1 o) (run_op k2 t2 o).
Proof.
  intros Hk.
  destruct (resumes o) eqn:Hres.
  - destruct o; try discriminate Hres; unfold run_op;
      (apply oblivious_bind; [|intros; apply oblivious_ret]).
    + by apply oblivious_Async_await_suspend.
    + by apply oblivious_return_value.
    + by apply oblivious_return_void.
    + by apply oblivious_Task_await_suspend.
  - intros w s1 s2. unfold with_stats.
    destruct o as [a|a h|a|c0 v0|c0|t|t h|t|t|i|c0]; try discriminate Hres;
      unfold run_op, Async_await_ready, CoroutineAwaitResume_await_resume,
        Task_await_ready, Task_await_resume, Task_destructor, get_return_object,
        final_suspend_point, final_suspend;
      try destruct a as [[c0|] iv [|]]; try destruct t as [[c0|]];
      destruct t1, t2; exec; try reflexivity;
      (destruct (frames w !! c0) as [[[|] [|] ? ?]|] eqn:E; exec; reflexivity).
Qed.

Lemma run_ops_forget_stats k1 k2 (t1 t2 : bool) (os : list (Op T)) :
  same_but_counters k1 k2 → oblivious (run_ops k1 t1 os) (run_ops k2 t2 os).
Proof.
  intros Hk. induction os as [|o os IH]; simpl; [apply oblivious_ret|].
  apply oblivious_bind; [by apply run_op_forget_stats|done].
Qed.

(** ** Two threads *)

Ltac count_tac :=
  simpl; rewrite ?app_nil_r, ?occurrences_app, ?occurrences_singleton; simpl in *;
  try done; lia.

Ltac step_in H :=
  revert H; cbn [interleave_upto thread_of_A thread_of_B publish_thread for_each_steps];
  unfold Task_await_suspend_steps, await_suspend_critical_steps, return_value_steps,
    return_void_steps, publish_steps, resume_steps, atomic;
  cbn [handle]; exec; intros H.

(** The invariant holds at every point of every schedule. *)
Lemma race_reach k c h v log0 before :
  continuations_keep undisturbed k →
  ∀ schedule pa pb w r w',
    race_invariant c h log0 before pa pb w →
    interleave_upto schedule (thread_of_A k c h pa) (thread_of_B k c v pb) w = Done r w' →
    ∃ pa' pb', r = (thread_of_A k c h pa', thread_of_B k c v pb') ∧
               race_invariant c h log0 before pa' pb' w'.
Proof.
  intros Hq schedule. induction schedule as [|first schedule IH]; intros pa pb w r w' Hinv H.
  { injection H as <- <-. by exists pa, pb. }
  pose proof Hinv as (hd & evs & E & Ht & Hm & Hex & Hr & Hbr & Hcnt).
  destruct first.
  - destruct pa.
    + (* the handle is dereferenced *)
      step_in H. refine (IH A_lock pb _ _ _ _ H).
      by exists hd, evs.
    + (* lock *)
      simpl in Hm, Hex. destruct (holds_B pb) eqn:HB.
      * step_in H. by refine (IH A_lock pb _ _ _ _ H).
      * step_in H. refine (IH A_test pb _ _ _ _ H).
        eexists _, (evs ++ [EvLock c]). cbn [frames trace mut returned to_resume].
        rewrite lookup_insert_eq, Ht, <- app_assoc, resumed_app, HB.
        repeat split; try done. count_tac.
    + (* the flag is read *)
      step_in H. refine (IH (A_branch (published_B pb)) pb _ _ _ _ H).
      eexists hd, (evs ++ [EvRead c returned_field]). cbn [frames trace].
      rewrite Ht, <- app_assoc, resumed_app.
      repeat split; try done.
      * intros r0 [= <-]. by rewrite Hr.
      * count_tac.
    + (* [resume()] is called, or the handle is registered *)
      simpl in Hm, Hex. rewrite (Hbr r0 eq_refl) in *. clear Hbr.
      destruct (returned hd) eqn:Hret.
      * step_in H. refine (IH A_called pb _ _ _ _ H).
        exists hd, (evs ++ [EvResume h]). cbn [frames trace].
        rewrite Ht, <- app_assoc, resumed_app.
        repeat split; try done; [by rewrite Hret|]. count_tac.
      * step_in H. refine (IH A_unlock pb _ _ _ _ H).
        destruct pb; try discriminate; try (by rewrite Hret in Hr).
        eexists _, (evs ++ [EvWrite c to_resume_field]).
        cbn [frames trace mut returned to_resume].
        rewrite lookup_insert_eq, Ht, <- app_assoc, resumed_app.
        repeat split; try done.
        count_tac.
    + (* the resumed coroutine runs *)
      simpl in Hm, Hex.
      step_in H.
      destruct (k h w) as [[] w2| | |] eqn:Hk; try discriminate H;
        [apply Hq in Hk as (Hfr & evs2 & Ht2 & Hres2)|].
      * refine (IH A_unlock pb _ _ _ _ H).
        exists hd, (evs ++ evs2). rewrite Hfr, Ht2, Ht, <- app_assoc, resumed_app, Hres2.
        repeat split; try done. count_tac.
      * by refine (IH A_called pb _ _ _ _ H).
    + (* unlock *)
      step_in H. refine (IH A_end pb _ _ _ _ H).
      simpl in Hm, Hex.
      eexists _, (evs ++ [EvUnlock c]). cbn [frames trace mut returned to_resume].
      rewrite lookup_insert_eq, Ht, <- app_assoc, resumed_app, Hex.
      repeat split; try done. count_tac.
    + (* finished *)
      simpl in H. by refine (IH A_end pb _ _ _ _ H).
  - destruct pb as [| | | |[|h' hs]|h' hs|].
    + (* lock *)
      simpl in Hm, Hex. rewrite orb_false_r in Hm. destruct v as [v0|].
      * destruct (holds_A pa) eqn:HA.
        -- step_in H. by refine (IH pa B_lock _ _ _ _ H).
        -- step_in H. refine (IH pa B_value _ _ _ _ H).
           eexists _, (evs ++ [EvLock c]). cbn [frames trace mut returned to_resume].
           rewrite lookup_insert_eq, Ht, <- app_assoc, resumed_app, HA.
           repeat split; try done; [|count_tac].
           intros r0 ->. discriminate HA.
      * destruct (holds_A pa) eqn:HA.
        -- step_in H. by refine (IH pa B_lock _ _ _ _ H).
        -- step_in H. refine (IH pa B_publish _ _ _ _ H).
           eexists _, (evs ++ [EvLock c]). cbn [frames trace mut returned to_resume].
           rewrite lookup_insert_eq, Ht, <- app_assoc, resumed_app, HA.
           repeat split; try done; [|count_tac].
           intros r0 ->. discriminate HA.
    + (* the value is stored; [return_void] goes on to the flag *)
      simpl in Hm, Hex. rewrite andb_true_r in Hex. destruct v as [v0|].
      * step_in H. refine (IH pa B_publish _ _ _ _ H).
        eexists _, (evs ++ [EvWrite c value_field]). cbn [frames trace mut returned to_resume].
        rewrite lookup_insert_eq, Ht, <- app_assoc, resumed_app, Hex.
        repeat split; try done; [|count_tac].
        intros r0 ->. discriminate Hex.
      * step_in H. refine (IH pa B_list _ _ _ _ H).
        eexists _, (evs ++ [EvWrite c returned_field]).
        cbn [frames trace mut returned to_resume].
        rewrite lookup_insert_eq, Ht, <- app_assoc, resumed_app, Hex.
        repeat split; try done; [|count_tac].
        intros r0 ->. discriminate Hex.
    + (* the flag is set *)
      simpl in Hm, Hex. rewrite andb_true_r in Hex.
      step_in H. refine (IH pa B_list _ _ _ _ H).
      eexists _, (evs ++ [EvWrite c returned_field]).
      cbn [frames trace mut returned to_resume].
      rewrite lookup_insert_eq, Ht, <- app_assoc, resumed_app, Hex.
      repeat split; try done; [|count_tac].
      intros r0 ->. discriminate Hex.
    + (* the list is read *)
      simpl in Hm, Hex. rewrite andb_true_r in Hex.
      step_in H. refine (IH pa (B_loop (to_resume hd)) _ _ _ _ H).
      eexists hd, (evs ++ [EvRead c to_resume_field]). cbn [frames trace].
      rewrite Ht, <- app_assoc, resumed_app.
      repeat split; try done; [by rewrite Hex|count_tac].
    + (* the loop is over: unlock *)
      simpl in Hm, Hex. rewrite andb_true_r in Hex.
      step_in H. refine (IH pa B_end _ _ _ _ H).
      eexists _, (evs ++ [EvUnlock c]). cbn [frames trace mut returned to_resume].
      rewrite lookup_insert_eq, Ht, <- app_assoc, resumed_app, Hex.
      repeat split; try done; [|count_tac].
      intros r0 ->. discriminate Hex.
    + (* [resume()] is called on the next waiter *)
      simpl in Hm, Hex. rewrite andb_true_r in Hex.
      step_in H. refine (IH pa (B_called h' hs) _ _ _ _ H).
      exists hd, (evs ++ [EvResume h']). cbn [frames trace].
      rewrite Ht, <- app_assoc, resumed_app.
      repeat split; try done; [by rewrite Hex|].
      simpl. rewrite occurrences_app. simpl in Hcnt.
      change (h' :: hs) with ([h'] ++ hs) in Hcnt. rewrite occurrences_app in Hcnt. lia.
    + (* the resumed waiter runs *)
      simpl in Hm, Hex. rewrite andb_true_r in Hex.
      step_in H.
      destruct (k h' w) as [[] w2| | |] eqn:Hk; try discriminate H;
        [apply Hq in Hk as (Hfr & evs2 & Ht2 & Hres2)|].
      * refine (IH pa (B_loop hs) _ _ _ _ H).
        exists hd, (evs ++ evs2). rewrite Hfr, Ht2, Ht, <- app_assoc, resumed_app, Hres2.
        repeat split; try done; [by rewrite Hex|]. count_tac.
      * by refine (IH pa (B_called h' hs) _ _ _ _ H).
    + (* finished *)
      simpl in H. by refine (IH pa B_end _ _ _ _ H).
Qed.

(** At no point of a race has [h.resume()] been called more than once
    beyond the registrations of [h] that were there before. *)
Lemma race_safe k c h v log0 before schedule pa pb w r w' :
  continuations_keep undisturbed k →
  race_invariant c h log0 before pa pb w →
  interleave_upto schedule (thread_of_A k c h pa) (thread_of_B k c v pb) w = Done r w' →
  ∃ evs, trace w' = log0 ++ evs ∧ occurrences h (resumed evs) ≤ before + 1.
Proof.
  intros Hq Hinv H.
  destruct (race_reach k c h v log0 before Hq schedule pa pb w r w' Hinv H)
    as (pa' & pb' & _ & hd & evs & _ & Ht & _ & _ & _ & _ & Hcnt).
  exists evs. split; [done|]. lia.
Qed.

(** When both threads are finished it has been called exactly once
    beyond them. *)
Lemma race_step k c h v log0 before schedule pa pb w w' :
  continuations_keep undisturbed k →
  race_invariant c h log0 before pa pb w →
  interleave schedule (thread_of_A k c h pa) (thread_of_B k c v pb) w = Done tt w' →
  ∃ evs, trace w' = log0 ++ evs ∧ occurrences h (resumed evs) = before + 1.
Proof.
  intros Hq Hinv H. apply bind_Done in H as (r & w1 & Hrun & Hend).
  destruct (race_reach k c h v log0 before Hq schedule pa pb w r w1 Hinv Hrun)
    as (pa' & pb' & -> & hd & evs & _ & Ht & _ & _ & _ & _ & Hcnt).
  destruct pa'; try (destruct r; discriminate Hend);
    destruct pb' as [| | | |[|]| |], v; try discriminate Hend.
  all: injection Hend as <-; exists evs; split; [done|]; simpl in Hcnt; lia.
Qed.

(** The race starts in a world where the mutex is free and the holder has
    not returned. *)
Lemma race_start c h w hd :
  frames w !! c = Some hd → mut hd = false → returned hd = false →
  race_invariant c h (trace w) (occurrences h (to_resume hd)) A_deref B_lock w.
Proof.
  intros E Hm Hr. exists hd, []. rewrite app_nil_r. repeat split; try done.
  simpl. lia.
Qed.

(** The threads are the member functions. *)
Lemma bind_cong {A B} (m : M T A) (f g : A → M T B) w :
  (∀ x w1, m w = Done x w1 → f x w1 = g x w1) → (m ≫= f) w = (m ≫= g) w.
Proof. intros H. unfold mbind, M_bind, bind. destruct (m w); auto. Qed.

Lemma run_atomic {A} (m : M T A) (rest : A → Thread T) w :
  run_thread (atomic m rest) w = (m ≫= λ x, run_thread (rest x)) w.
Proof. simpl. unfold mbind, M_bind, bind, mret, M_ret, ret. by destruct (m w). Qed.

Lemma run_resume_steps k h (rest : Thread T) w :
  run_thread (resume_steps k h rest) w = (resume k h ;; run_thread rest) w.
Proof.
  unfold resume_steps, resume. rewrite run_atomic, bind_assoc.
  apply bind_cong. intros [] w1 _. by rewrite run_atomic.
Qed.

Lemma run_for_each_steps k hs (rest : Thread T) w :
  run_thread (for_each_steps hs (resume_steps k) rest) w =
  (for_each hs (resume k) ;; run_thread rest) w.
Proof.
  revert w. induction hs as [|h hs IH]; intros w; [done|].
  cbn [for_each_steps for_each]. rewrite run_resume_steps, bind_assoc.
  apply bind_cong. intros [] w1 _. apply IH.
Qed.

Lemma run_unlock_steps c w (x : unit) :
  run_thread (atomic (unlock c) (λ _, Finished)) w = (unlock c ;; ret x) w.
Proof.
  rewrite run_atomic. unfold mbind, M_bind, bind, ret. simpl.
  destruct x. by destruct (unlock c w) as [[] w1| | |].
Qed.

Lemma run_critical_steps k c h w :
  run_thread (await_suspend_critical_steps k c h) w =
  lock_guard c (r ← get_returned c; if (r : bool) then resume k h else push_back c h) w.
Proof.
  unfold await_suspend_critical_steps, lock_guard. rewrite run_atomic.
  apply bind_cong. intros [] w1 _. rewrite run_atomic, bind_assoc.
  apply bind_cong. intros r w2 _. destruct r.
  - rewrite run_resume_steps. apply bind_cong. intros x w3 _. apply run_unlock_steps.
  - rewrite run_atomic. apply bind_cong. intros x w3 _. apply run_unlock_steps.
Qed.

Lemma run_Task_await_suspend_steps k t h w :
  run_thread (Task_await_suspend_steps k t h) w = Task_await_suspend k t h w.
Proof.
  unfold Task_await_suspend_steps, Task_await_suspend. rewrite run_atomic.
  apply bind_cong. intros c w1 _. apply run_critical_steps.
Qed.

Lemma run_Async_await_suspend_steps k a h w :
  run_thread (Async_await_suspend_steps k a h) w = Async_await_suspend k a h w.
Proof.
  unfold Async_await_suspend_steps, Async_await_suspend.
  destruct (negb (is_immediate a)); [|done].
  rewrite run_atomic. apply bind_cong. intros c w1 _. apply run_critical_steps.
Qed.

Lemma run_publish_steps k c w :
  run_thread (publish_steps k c) w =
  (x ← (set_returned c true ;; hs ← get_to_resume c; for_each hs (resume k));
   unlock c ;; ret x) w.
Proof.
  unfold publish_steps. rewrite run_atomic, bind_assoc.
  apply bind_cong. intros [] w1 _. rewrite run_atomic, bind_assoc.
  apply bind_cong. intros hs w2 _. rewrite run_for_each_steps.
  apply bind_cong. intros x w3 _. apply run_unlock_steps.
Qed.

Lemma run_return_value_steps k c v w :
  run_thread (return_value_steps k c v) w = return_value k c v w.
Proof.
  unfold return_value_steps, return_value, lock_guard. rewrite run_atomic.
  apply bind_cong. intros [] w1 _. rewrite run_atomic, bind_assoc.
  apply bind_cong. intros [] w2 _. apply run_publish_steps.
Qed.

Lemma run_return_void_steps k c w :
  run_thread (return_void_steps k c) w = return_void k c w.
Proof.
  unfold return_void_steps, return_void, lock_guard. rewrite run_atomic.
  apply bind_cong. intros [] w1 _. apply run_publish_steps.
Qed.


(** ** Coroutines that are resumed *)

(** A loop over waiters whose coroutines leave the frames alone and resume
    nobody: when it is over, the frames are what they were and [resume()]
    has been called on the waiters, once each, in the order of the list. *)
Lemma loop_undisturbed k hs w w' :
  continuations_keep undisturbed k →
  for_each hs (resume k) w = Done tt w' →
  frames w' = frames w ∧ ∃ evs, trace w' = trace w ++ evs ∧ resumed evs = hs.
Proof.
  intros Hq. revert w. induction hs as [|h hs IH]; intros w H.
  - injection H as <-. split; [done|]. exists []. by rewrite app_nil_r.
  - cbn [for_each] in H. apply bind_Done in H as ([] & w1 & Hres & Hrest).
    unfold resume in Hres. apply bind_Done in Hres as ([] & w0 & Hemit & Hk).
    injection Hemit as <-.
    apply Hq in Hk as (Hfr & evs1 & Ht1 & Hres1). cbn [frames trace] in Hfr, Ht1.
    destruct (IH w1 Hrest) as (Hfr2 & evs2 & Ht2 & Hres2).
    split; [congruence|]. exists ([EvResume h] ++ evs1 ++ evs2).
    split; [by rewrite Ht2, Ht1, <- !app_assoc|].
    by rewrite !resumed_app, Hres1, Hres2.
Qed.

(** A loop over waiters whose coroutines leave the frame of [c] alone
    leaves it alone, and so the unlock after it releases the holder as the
    loop found it. *)
Lemma loop_frame_kept k c hs w w' :
  continuations_keep (frame_kept c) k →
  for_each hs (resume k) w = Done tt w' → frames w' !! c = frames w !! c.
Proof.
  intros Hq H.
  eapply (preserves_for_each (frame_kept c) hs (resume k)); [|exact H].
  intros h. apply preserves_resume; [apply _| |done].
  intros w0 [] w1 H1. by injection H1 as <-.
Qed.

Lemma loop_unlock_frame k c hs w hd w' :
  continuations_keep (frame_kept c) k →
  frames w !! c = Some hd →
  (for_each hs (resume k) ;; unlock c) w = Done tt w' →
  frames w' !! c = Some (mkHolder false (returned hd) (value hd) (to_resume hd)).
Proof.
  intros Hq E H. apply bind_Done in H as ([] & w2 & Hloop & Hunlock).
  apply (loop_frame_kept k c) in Hloop; [|done]. rewrite E in Hloop.
  apply unlock_Done in Hunlock as (hd2 & E2 & ->). rewrite E2 in Hloop.
  injection Hloop as ->. cbn [frames]. by rewrite lookup_insert_eq.
Qed.

(** A coroutine that awaits a deferred awaitable of [c] and is resumed
    while the mutex of [c] is held never comes back: its [await_resume]
    locks that mutex. *)
Lemma awaiting_Async_blocks a c hd h w :
  is_immediate a = false → pself a = Some c →
  frames w !! c = Some hd → mut hd = true →
  awaiting_Async a h w = Blocked.
Proof.
  intros Hi Hp E Hm. unfold awaiting_Async, CoroutineAwaitResume_await_resume. by exec.
Qed.

(** A coroutine that awaits the task of a live frame reads the value, with
    no lock taken, and comes back. *)
Lemma awaiting_Task_spec c hd h w :
  frames w !! c = Some hd →
  awaiting_Task (mkTask (Some c)) h w =
  Done tt (mkWorld (frames w) (trace w ++ [EvRead c value_field]) (executor w)).
Proof. intros E. unfold awaiting_Task, Task_await_resume. by exec. Qed.

Lemma awaiting_Task_Done t h w w' :
  awaiting_Task (T := T) t h w = Done tt w' →
  ∃ c, handle t = Some c ∧
       w' = mkWorld (frames w) (trace w ++ [EvRead c value_field]) (executor w).
Proof.
  destruct t as [[c|]]; unfold awaiting_Task, Task_await_resume; exec; [|done].
  destruct (frames w !! c) eqn:E; exec; [|done].
  intros H. injection H as <-. eauto.
Qed.

Lemma loop_awaiting_Task c hd hs w :
  frames w !! c = Some hd →
  for_each hs (resume (awaiting_Task (mkTask (Some c)))) w =
  Done tt (mkWorld (frames w) (trace w ++ resumed_readers c hs) (executor w)).
Proof.
  intros E. revert w E. induction hs as [|h hs IH]; intros w E.
  - simpl. rewrite app_nil_r. by destruct w.
  - cbn [for_each]. unfold mbind at 1, M_bind at 1, bind at 1. unfold resume at 1.
    unfold mbind at 1, M_bind at 1, bind at 1, emit at 1.
    rewrite (awaiting_Task_spec c hd) by done. cbn [frames trace executor].
    rewrite IH by done. cbn [frames trace executor]. by rewrite <- !app_assoc.
Qed.

Lemma resumed_readers_locked c hs :
  resumes_locked c true (resumed_readers c hs ++ [EvUnlock c]) = true.
Proof. induction hs as [|h hs IH]; simpl; done. Qed.

Lemma resumed_readers_resumed c hs : resumed (resumed_readers c hs) = hs.
Proof. induction hs as [|h hs IH]; simpl; [done|by rewrite IH]. Qed.

(** Registering the waiters [ws] one after the other on a holder that has
    not returned appends them, and resumes nobody. *)
Lemma register_pending k ws : ∀ w c hd,
  frames w !! c = Some hd → mut hd = false → returned hd = false →
  ∃ evs,
    for_each ws (Task_await_suspend k (mkTask (Some c))) w =
    Done tt (mkWorld (<[c := mkHolder false false (value hd) (to_resume hd ++ ws)]> (frames w))
                     (trace w ++ evs) (executor w))
    ∧ resumed evs = [].
Proof.
  induction ws as [|h ws IH]; intros w c hd E Hm Hr.
  - exists []. split; [|done]. simpl. unfold mret, M_ret, ret.
    rewrite !app_nil_r. destruct w as [frs tr ex]; simpl in *. f_equal. f_equal.
    symmetry. apply insert_id. rewrite E. f_equal.
    destruct hd; simpl in *; by subst.
  - simpl. unfold mbind, M_bind, bind.
    rewrite (Task_await_suspend_pending k w c hd h E Hm Hr).
    edestruct (IH (mkWorld (<[c := mkHolder false false (value hd) (to_resume hd ++ [h])]>
                               (frames w))
                            (trace w ++ [EvLock c; EvRead c returned_field;
                                         EvWrite c to_resume_field; EvUnlock c])
                            (executor w)) c) as (evs & -> & Hevs);
      [apply lookup_insert_eq | done | done |].
    eexists. split.
    + simpl. rewrite insert_insert_eq, <- !app_assoc. reflexivity.
    + by rewrite resumed_app, Hevs.
Qed.

Lemma for_each_ext hs (f g : coroutine_handle → M T unit) :
  (∀ h w, f h w = g h w) → ∀ w, for_each hs f w = for_each hs g w.
Proof.
  intros Hfg. induction hs as [|h hs IH]; intros w; [done|].
  simpl. unfold mbind, M_bind, bind. rewrite Hfg.
  destruct (g h w); auto.
Qed.

(** ** The claims *)

(** C1: a publish, [Promise<T>::return_value] or
    [Promise<void>::return_void], does not release the mutex before it
    resumes the waiters: the [lock_guard] spans the loop, so whatever the
    resumed coroutines are, the loop over the waiter list starts in a world
    where the mutex of the holder is held and the list is still in the
    holder, and the unlock comes after the loop.  If the waiters await the
    holder through an [Async], whose [await_resume] locks the same mutex,
    every publish on a holder with a waiter blocks on its own lock.  If they
    await it through the task, whose [await_resume] takes no lock, the
    publish returns, with every resumption logged between the lock and the
    unlock and the waiter list left in place. *)
Theorem publish_resumes_under_lock k w c hd v :
  frames w !! c = Some hd → mut hd = false →
  (return_value k c v w =
     (for_each (to_resume hd) (resume k) ;; unlock c)
       (mkWorld (<[c := mkHolder true true v (to_resume hd)]> (frames w))
                (trace w ++ [EvLock c; EvWrite c value_field; EvWrite c returned_field;
                             EvRead c to_resume_field])
                (executor w)) ∧
   return_void k c w =
     (for_each (to_resume hd) (resume k) ;; unlock c)
       (mkWorld (<[c := mkHolder true true (value hd) (to_resume hd)]> (frames w))
                (trace w ++ [EvLock c; EvWrite c returned_field; EvRead c to_resume_field])
                (executor w))) ∧
  (∀ a, is_immediate a = false → pself a = Some c → to_resume hd ≠ [] →
     return_value (awaiting_Async a) c v w = Blocked ∧
     return_void (awaiting_Async a) c w = Blocked) ∧
  (∃ w', return_value (awaiting_Task (mkTask (Some c))) c v w = Done tt w' ∧
         events_since (length (trace w)) w' =
           [EvLock c; EvWrite c value_field; EvWrite c returned_field;
            EvRead c to_resume_field] ++ resumed_readers c (to_resume hd) ++ [EvUnlock c] ∧
         resumes_locked c false (events_since (length (trace w)) w') = true ∧
         (to_resume hd ≠ [] →
          resumes_unlocked c false (events_since (length (trace w)) w') = false) ∧
         frames w' !! c = Some (mkHolder false true v (to_resume hd))).
Proof.
  intros E Hm. split; [|split].
  - split; [by apply return_value_spec | by apply return_void_spec].
  - intros a Hi Hp Hne.
    destruct (to_resume hd) as [|h hs] eqn:Hws; [done|].
    rewrite (return_value_spec _ w c hd v E Hm), (return_void_spec _ w c hd E Hm), Hws.
    cbn [for_each]. unfold resume.
    unfold mbind, M_bind, bind, emit. cbn [frames trace executor].
    by rewrite !(awaiting_Async_blocks a c (mkHolder true true _ (h :: hs)))
      by (try done; apply lookup_insert_eq).
  - rewrite (return_value_spec _ w c hd v E Hm).
    unfold mbind, M_bind, bind.
    rewrite (loop_awaiting_Task c (mkHolder true true v (to_resume hd)))
      by apply lookup_insert_eq.
    erewrite unlock_spec by apply lookup_insert_eq.
    eexists. split; [reflexivity|]. cbn [frames trace executor returned value to_resume].
    rewrite <- !app_assoc, events_since_app, lookup_insert_eq.
    repeat split.
    + simpl. rewrite decide_True by done. apply resumed_readers_locked.
    + intros Hne. destruct (to_resume hd); [done|]. simpl. by rewrite decide_True.
Qed.

(** C6: waiters registered through [Async::await_suspend] on a holder that
    has not returned are put in the list in the order of registration, and
    nobody is resumed by that; the next publish then blocks inside the first
    resumption, which locks the mutex that the publish holds, so that no
    later waiter is ever resumed. *)
Theorem publish_blocks_on_Async_waiter w c hd a ws v :
  frames w !! c = Some hd → mut hd = false → returned hd = false →
  is_immediate a = false → pself a = Some c → to_resume hd ++ ws ≠ [] →
  let k := awaiting_Async a in
  ∃ w1,
    for_each ws (Async_await_suspend k a) w = Done tt w1 ∧
    frames w1 !! c = Some (mkHolder false false (value hd) (to_resume hd ++ ws)) ∧
    resumed (events_since (length (trace w)) w1) = [] ∧
    return_value k c v w1 = Blocked ∧
    return_void k c w1 = Blocked ∧
    (for_each ws (Async_await_suspend k a) ;; return_value k c v) w = Blocked ∧
    (∀ h hs w2 hd2, to_resume hd ++ ws = h :: hs →
       frames w2 !! c = Some hd2 → mut hd2 = true → resume k h w2 = Blocked).
Proof.
  intros E Hm Hr Hi Hp Hne k.
  destruct (register_pending k ws w c hd E Hm Hr) as (evs & Hrun & Hres).
  rewrite <- (for_each_ext ws (Async_await_suspend k a)) in Hrun
    by (intros h0 w0; by apply Async_await_suspend_deferred).
  assert (∀ h w2 hd2, frames w2 !! c = Some hd2 → mut hd2 = true → resume k h w2 = Blocked)
    as Hblocks.
  { intros h w2 hd2 E2 Hm2. unfold resume, mbind, M_bind, bind, emit. subst k.
    by rewrite (awaiting_Async_blocks a c hd2) by done. }
  eexists. split; [exact Hrun|]. cbn [frames trace].
  rewrite lookup_insert_eq, events_since_app.
  destruct (to_resume hd ++ ws) as [|h hs] eqn:Hws; [done|].
  assert (∀ w1, frames w1 !! c = Some (mkHolder false false (value hd) (h :: hs)) →
                return_value k c v w1 = Blocked ∧ return_void k c w1 = Blocked) as Hpub.
  { intros w1 E1.
    rewrite (return_value_spec k w1 c _ v E1 eq_refl), (return_void_spec k w1 c _ E1 eq_refl).
    cbn [to_resume for_each]. unfold mbind, M_bind, bind.
    by rewrite !(Hblocks h _ (mkHolder true true _ (h :: hs)))
      by (try done; apply lookup_insert_eq). }
  repeat split; try done.
  - apply Hpub, lookup_insert_eq.
  - apply Hpub, lookup_insert_eq.
  - unfold mbind, M_bind, bind. rewrite Hrun. apply Hpub, lookup_insert_eq.
  - intros h0 hs0 w2 hd2 _. apply Hblocks.
Qed.

(** A task whose frame is live is destroyed with its frame, holder
    included. *)
Lemma Task_destructor_live w c hd :
  frames w !! c = Some hd →
  Task_destructor (mkTask (Some c)) w =
  Done tt (mkWorld (delete c (frames w)) (trace w ++ [EvDestroy c]) (executor w)).
Proof. intros E. unfold Task_destructor. simpl. by exec. Qed.

(** A coroutine whose body is [co_return v;] has run off its end when the
    call returns: the frame is gone and the task holds its address.  The
    new frame has no waiter, so no coroutine is resumed. *)
Lemma call_co_return_spec k w (indeterminate v : T) :
  let c := fresh (dom (frames w)) in
  call_co_return k indeterminate v w =
  Done (mkTask (Some c))
       (mkWorld (frames w)
                (trace w ++ [EvLock c; EvWrite c value_field; EvWrite c returned_field;
                             EvRead c to_resume_field; EvUnlock c; EvDestroy c])
                (executor w)).
Proof.
  intros c.
  assert (frames w !! c = None) as Hfresh by apply not_elem_of_dom, is_fresh.
  unfold call_co_return, co_return, final_suspend_point, final_suspend, initial_suspend,
    get_return_object.
  fold c. exec. tidy.
  by rewrite delete_insert_eq, delete_id.
Qed.

(** C5: evaluated on a task whose body has run to completion.  For every
    world, the call of a coroutine with body [co_return v;] returns a task
    with a non-null handle to a frame that [final_suspend] (it is
    [suspend_never]) has already destroyed, and [~Task()] on that task is
    a [destroy()] of a dangling handle. *)
Theorem Task_destructor_after_completion k w (indeterminate v : T) :
  (∃ c w', call_co_return k indeterminate v w = Done (mkTask (Some c)) w' ∧
           frames w' !! c = None ∧
           Task_destructor (mkTask (Some c)) w' = Undefined) ∧
  (t ← call_co_return k indeterminate v; Task_destructor t) w = Undefined.
Proof.
  assert (frames w !! fresh (dom (frames w)) = None) as Hfresh
    by apply not_elem_of_dom, is_fresh.
  split.
  - eexists _, _. split; [apply call_co_return_spec|]. split; [done|].
    unfold Task_destructor. simpl. by exec.
  - unfold mbind at 1, M_bind at 1, bind at 1. rewrite call_co_return_spec.
    unfold Task_destructor. simpl. by exec.
Qed.

(** C8: on an immediate awaitable [await_ready] is [true] and neither it nor
    [await_suspend] (which terminates the process) nor [await_resume]
    touches any holder; on a deferred awaitable [await_ready] returns the
    [returned] flag of its holder, read between the lock and the unlock of
    the holder's mutex, and leaves every holder as it was.  Both hold with
    and without [TELEMETRY]. *)
Theorem Async_await_ready_spec k (TELEMETRY : bool) a w :
  (is_immediate a = true →
     (∃ w', Async_await_ready TELEMETRY a w = Done true w' ∧
            frames w' = frames w ∧ trace w' = trace w) ∧
     (∀ h, ∃ w', Async_await_suspend k a h w = Terminated w' ∧ frames w' = frames w ∧
                 resumed (events_since (length (trace w)) w') = []) ∧
     CoroutineAwaitResume_await_resume a w = Done (immediate_value a) w) ∧
  (is_immediate a = false →
     ∀ c hd, pself a = Some c → frames w !! c = Some hd → mut hd = false →
     ∃ w', Async_await_ready TELEMETRY a w = Done (returned hd) w' ∧
           frames w' = frames w ∧
           events_since (length (trace w)) w' =
             [EvLock c; EvRead c returned_field; EvUnlock c] ∧
           accesses_locked c false (events_since (length (trace w)) w') = true).
Proof.
  split.
  - intros Hi. repeat split.
    + unfold Async_await_ready. exec. destruct TELEMETRY; eexists; by exec.
    + intros h. unfold Async_await_suspend. exec. eexists. split; [done|].
      split; [done|]. by rewrite events_since_app.
    + unfold CoroutineAwaitResume_await_resume. by exec.
  - intros Hi c hd Hp E Hm.
    assert (<[c := mkHolder false (returned hd) (value hd) (to_resume hd)]> (frames w)
            = frames w) as Hid.
    { apply insert_id. rewrite E. f_equal. destruct hd; simpl in *; by subst. }
    unfold Async_await_ready.
    destruct TELEMETRY; exec; [destruct (returned hd) eqn:Hr|]; exec; tidy;
      rewrite ?Hid; (eexists; split; [reflexivity|]);
      rewrite events_since_app; simpl; rewrite ?decide_True by done; done.
Qed.

(** C9: the copy constructor of [Task] is deleted; the move constructor
    hands the handle over and nulls the source; the destructor of a
    moved-from task destroys nothing. *)
Theorem Task_move_only (rhs : Task) w :
  Task_constructor Task_copy = deleted ∧
  Task_constructor Task_move = defined ∧
  handle (Task_move_construct rhs).1 = handle rhs ∧
  handle (Task_move_construct rhs).2 = None ∧
  Task_destructor (Task_move_construct rhs).2 w = Done tt w.
Proof. by repeat split. Qed.

(** C4 (amended): while its frame lives, the [returned] flag of a holder
    never goes back from [true] to [false], whatever operations run, as
    long as the coroutines they resume do not take it back (so it goes from
    [false] to [true] at most once); [return_value] does not test the flag:
    on a holder whose mutex is free it stores its argument in [value], in
    place of what was there, and sets [returned], before it resumes any
    waiter; it is neither rejected nor fatal: with no waiter it returns, and
    whenever it returns from resuming waiters that leave the frame alone,
    the holder has the new value. *)
Theorem returned_monotone_publish_overwrites k (TELEMETRY : bool) (os : list (Op T))
    w w' c hd :
  frames w !! c = Some hd →
  (returned hd = true →
   continuations_keep (evolves c) k →
   run_ops k TELEMETRY os w = Done tt w' →
   EvDestroy c ∉ events_since (length (trace w)) w' →
   ∃ hd', frames w' !! c = Some hd' ∧ returned hd' = true) ∧
  (mut hd = false →
   ∀ v,
     return_value k c v w =
       (for_each (to_resume hd) (resume k) ;; unlock c)
         (mkWorld (<[c := mkHolder true true v (to_resume hd)]> (frames w))
                  (trace w ++ [EvLock c; EvWrite c value_field; EvWrite c returned_field;
                               EvRead c to_resume_field])
                  (executor w)) ∧
     (to_resume hd = [] →
      return_value k c v w =
        Done tt (mkWorld (<[c := mkHolder false true v []]> (frames w))
                         (trace w ++ [EvLock c; EvWrite c value_field;
                                      EvWrite c returned_field; EvRead c to_resume_field;
                                      EvUnlock c])
                         (executor w))) ∧
     (∀ w'', continuations_keep (frame_kept c) k →
             return_value k c v w = Done tt w'' →
             frames w'' !! c = Some (mkHolder false true v (to_resume hd)))).
Proof.
  intros E. split.
  - intros Hr Hk Hrun Hlive.
    destruct (run_ops_evolves k TELEMETRY os c Hk w tt w' Hrun) as (evs & Ht & Hev).
    unfold events_since in Hlive. rewrite Ht, drop_app_length in Hlive.
    destruct Hev as [Hev|Hev]; [done|].
    destruct (Hev hd E Hr) as (hd' & E' & Hr' & _). eauto.
  - intros Hm v. split; [by apply return_value_spec|]. split.
    + intros Hws. rewrite (return_value_spec k w c hd v E Hm), Hws.
      cbn [for_each]. unfold mbind, M_bind, bind, mret, M_ret, ret.
      erewrite unlock_spec by apply lookup_insert_eq. cbn [frames trace executor].
      by rewrite insert_insert_eq, <- app_assoc.
    + intros w'' Hk Hrun. rewrite (return_value_spec k w c hd v E Hm) in Hrun.
      eapply (loop_unlock_frame k c) in Hrun; [|done|apply lookup_insert_eq]. done.
Qed.

(** C10: what an operation returns, whether it returns, and what it does to
    the holders and to the log depend neither on whether [TELEMETRY] is
    defined nor on what the counters hold, for resumed coroutines that do
    not depend on them either; this extends to every sequence of
    operations.  The boolean of [Async::await_ready], which resumes nobody,
    is the same in both builds outright. *)
Theorem telemetry_never_gates k1 k2 (o : Op T) (os : list (Op T)) a w
    (s1 s2 : ExecutorStats) :
  (same_but_counters k1 k2 →
   forget_stats_outcome (run_op k1 true o (with_stats s1 w)) =
     forget_stats_outcome (run_op k2 false o (with_stats s2 w)) ∧
   forget_stats_outcome (run_ops k1 true os (with_stats s1 w)) =
     forget_stats_outcome (run_ops k2 false os (with_stats s2 w))) ∧
  forget_stats_outcome (Async_await_ready true a (with_stats s1 w)) =
    forget_stats_outcome (Async_await_ready false a (with_stats s2 w)).
Proof.
  split.
  - intros Hk. split; [by apply run_op_forget_stats | by apply run_ops_forget_stats].
  - assert (same_but_counters (T := T) (λ _, ret tt) (λ _, ret tt)) as Hk by done.
    pose proof (run_op_forget_stats _ _ true false (OpAsyncAwaitReady a) Hk w s1 s2) as H.
    simpl in H. unfold mbind, M_bind, bind, mret, M_ret, ret in H.
    destruct (Async_await_ready true a (with_stats s1 w)),
             (Async_await_ready false a (with_stats s2 w)); simpl in *; congruence.
Qed.


(** ** Further properties of the code *)

(** Every member function that dereferences the frame is undefined on a
    frame that is not live. *)
Lemma dangling_undefined k w c :
  frames w !! c = None →
  Task_await_ready (mkTask (Some c)) w = Undefined ∧
  (∀ h, Task_await_suspend k (mkTask (Some c)) h w = Undefined) ∧
  Task_await_resume (mkTask (Some c)) w = Undefined ∧
  Task_destructor (mkTask (Some c)) w = Undefined ∧
  (∀ h, co_await_Task k (mkTask (Some c)) h w = Undefined) ∧
  (∀ v, return_value k c v w = Undefined) ∧
  return_void k c w = Undefined ∧
  (∀ a (TELEMETRY : bool) h, is_immediate a = false → pself a = Some c →
     Async_await_ready TELEMETRY a w = Undefined ∧
     Async_await_suspend k a h w = Undefined ∧
     CoroutineAwaitResume_await_resume a w = Undefined ∧
     CoroutineAwaitResume_void_await_resume a w = Undefined).
Proof.
  intros E.
  unfold co_await_Task, Task_await_ready, Task_await_suspend, Task_await_resume,
    Task_destructor.
  repeat split; try intros a TELEMETRY h Hi Hp; try intros ?;
    unfold Async_await_ready, Async_await_suspend, CoroutineAwaitResume_await_resume,
      CoroutineAwaitResume_void_await_resume;
    simpl; by exec.
Qed.

(** A publish that has returned from resuming coroutines that leave the
    frames alone and resume nobody. *)
Lemma publish_resumed k w c hd v (publish : M T unit) w' :
  frames w !! c = Some hd → mut hd = false →
  publish = return_value k c v ∨ publish = return_void k c →
  continuations_keep undisturbed k →
  publish w = Done tt w' →
  ∃ v' evs,
    frames w' = <[c := mkHolder false true v' (to_resume hd)]> (frames w) ∧
    trace w' = trace w ++ evs ++ [EvUnlock c] ∧ resumed evs = to_resume hd.
Proof.
  intros E Hm Hp Hq Hrun.
  assert (∃ v' evs0 w1,
            frames w1 = <[c := mkHolder true true v' (to_resume hd)]> (frames w) ∧
            trace w1 = trace w ++ evs0 ∧ resumed evs0 = [] ∧
            (for_each (to_resume hd) (resume k) ;; unlock c) w1 = Done tt w')
    as (v' & evs0 & w1 & Hfr1 & Ht1 & Hres0 & Hrest).
  { destruct Hp as [-> | ->].
    - rewrite (return_value_spec k w c hd v E Hm) in Hrun.
      match type of Hrun with _ ?w1 = _ =>
        by exists v, [EvLock c; EvWrite c value_field; EvWrite c returned_field;
                      EvRead c to_resume_field], w1
      end.
    - rewrite (return_void_spec k w c hd E Hm) in Hrun.
      match type of Hrun with _ ?w1 = _ =>
        by exists (value hd), [EvLock c; EvWrite c returned_field; EvRead c to_resume_field], w1
      end. }
  apply bind_Done in Hrest as ([] & w2 & Hloop & Hunlock).
  apply (loop_undisturbed k) in Hloop as (Hfr2 & evs2 & Ht2 & Hres2); [|done].
  apply unlock_Done in Hunlock as (hd2 & E2 & ->).
  rewrite Hfr2, Hfr1, lookup_insert_eq in E2. injection E2 as <-.
  exists v', (evs0 ++ evs2). cbn [frames trace returned value to_resume].
  rewrite Hfr2, Hfr1, insert_insert_eq, Ht2, Ht1, <- !app_assoc.
  repeat split; try done.
  by rewrite !resumed_app, Hres0, Hres2.
Qed.

(** A publish on a holder whose waiters await it through its task
    returns. *)
Lemma publish_awaiting_Task w c hd v (publish : M T unit) :
  frames w !! c = Some hd → mut hd = false →
  publish = return_value (awaiting_Task (mkTask (Some c))) c v ∨
  publish = return_void (awaiting_Task (mkTask (Some c))) c →
  ∃ w' v' evs,
    publish w = Done tt w' ∧
    frames w' = <[c := mkHolder false true v' (to_resume hd)]> (frames w) ∧
    trace w' = trace w ++ evs ∧ resumed evs = to_resume hd.
Proof.
  intros E Hm [-> | ->].
  - rewrite (return_value_spec _ w c hd v E Hm).
    unfold mbind, M_bind, bind.
    rewrite (loop_awaiting_Task c (mkHolder true true v (to_resume hd)))
      by apply lookup_insert_eq.
    erewrite unlock_spec by apply lookup_insert_eq.
    eexists _, v, _. split; [reflexivity|].
    cbn [frames trace executor returned value to_resume].
    rewrite insert_insert_eq, <- !app_assoc. repeat split.
    rewrite !resumed_app, resumed_readers_resumed. simpl. by rewrite app_nil_r.
  - rewrite (return_void_spec _ w c hd E Hm).
    unfold mbind, M_bind, bind.
    rewrite (loop_awaiting_Task c (mkHolder true true (value hd) (to_resume hd)))
      by apply lookup_insert_eq.
    erewrite unlock_spec by apply lookup_insert_eq.
    eexists _, (value hd), _. split; [reflexivity|].
    cbn [frames trace executor returned value to_resume].
    rewrite insert_insert_eq, <- !app_assoc. repeat split.
    rewrite !resumed_app, resumed_readers_resumed. simpl. by rewrite app_nil_r.
Qed.

(** X1: what the readers of a published value get.  A waiter that
    [return_value(v)] resumes runs while the publish holds the mutex:
    through the task it is ready and gets [v], with no lock taken; through a
    deferred awaitable both [await_ready] and [await_resume] block.  After a
    publish that has returned from coroutines that left the frame alone,
    [CoroutineAwaitResume::await_resume] and [Task::await_resume] return
    [v], both [await_ready] functions return [true], and none of the four
    changes a holder. *)
Theorem publish_then_read k w c hd v a :
  frames w !! c = Some hd → mut hd = false →
  is_immediate a = false → pself a = Some c →
  (∃ w0, return_value k c v w = (for_each (to_resume hd) (resume k) ;; unlock c) w0 ∧
     (∃ w2, Task_await_ready (mkTask (Some c)) w0 = Done true w2 ∧ frames w2 = frames w0) ∧
     (∃ w2, Task_await_resume (mkTask (Some c)) w0 = Done v w2 ∧ frames w2 = frames w0) ∧
     (∀ TELEMETRY : bool, Async_await_ready TELEMETRY a w0 = Blocked) ∧
     CoroutineAwaitResume_await_resume a w0 = Blocked) ∧
  (∀ w1, continuations_keep (frame_kept c) k →
     return_value k c v w = Done tt w1 →
     (∃ w2, CoroutineAwaitResume_await_resume a w1 = Done v w2 ∧ frames w2 = frames w1) ∧
     (∃ w2, Task_await_resume (mkTask (Some c)) w1 = Done v w2 ∧ frames w2 = frames w1) ∧
     (∀ TELEMETRY : bool,
        ∃ w2, Async_await_ready TELEMETRY a w1 = Done true w2 ∧ frames w2 = frames w1) ∧
     (∃ w2, Task_await_ready (mkTask (Some c)) w1 = Done true w2 ∧ frames w2 = frames w1)).
Proof.
  intros E Hm Hi Hp. split.
  - eexists. split; [by apply return_value_spec|].
    unfold CoroutineAwaitResume_await_resume, Task_await_resume, Async_await_ready,
      Task_await_ready.
    repeat split; try intros [|]; try eexists; by exec.
  - intros w1 Hk Hrun. rewrite (return_value_spec k w c hd v E Hm) in Hrun.
    eapply (loop_unlock_frame k c) in Hrun; [|done|apply lookup_insert_eq].
    cbn [returned value to_resume] in Hrun.
    assert (<[c := mkHolder false true v (to_resume hd)]> (frames w1) = frames w1) as Hid
      by by apply insert_id.
    unfold CoroutineAwaitResume_await_resume, Task_await_resume, Async_await_ready,
      Task_await_ready.
    repeat split; try intros [|]; eexists; exec;
      (split; [reflexivity|]); cbn [frames]; by rewrite ?insert_insert_eq, ?Hid.
Qed.

(** X2: [CoroutineAwaitResume::await_resume], with a value and for [void],
    on a deferred awaitable: when the holder has not returned the process is
    terminated; when it has, the call returns the stored value (nothing for
    [void]), reads only between lock and unlock, and leaves the holders as
    they were. *)
Theorem await_resume_needs_returned w c hd a :
  frames w !! c = Some hd → mut hd = false →
  is_immediate a = false → pself a = Some c →
  (returned hd = false →
     (∃ w', CoroutineAwaitResume_await_resume a w = Terminated w') ∧
     (∃ w', CoroutineAwaitResume_void_await_resume a w = Terminated w')) ∧
  (returned hd = true →
     CoroutineAwaitResume_await_resume a w =
       Done (value hd)
            (mkWorld (frames w)
                     (trace w ++ [EvLock c; EvRead c returned_field; EvRead c value_field;
                                  EvUnlock c])
                     (executor w)) ∧
     CoroutineAwaitResume_void_await_resume a w =
       Done tt
            (mkWorld (frames w)
                     (trace w ++ [EvLock c; EvRead c returned_field; EvUnlock c])
                     (executor w))).
Proof.
  intros E Hm Hi Hp.
  assert (returned hd = true →
          <[c := mkHolder false true (value hd) (to_resume hd)]> (frames w) = frames w)
    as Hid.
  { intros Hr. apply insert_id. rewrite E. f_equal. destruct hd; simpl in *; by subst. }
  unfold CoroutineAwaitResume_await_resume, CoroutineAwaitResume_void_await_resume.
  split; intros Hr.
  - split; eexists; by exec.
  - split; exec; tidy; by rewrite Hid.
Qed.

(** X3: a publish does not empty the waiter list.  Two publishes in a row,
    each a [return_value] or a [return_void], that both return from
    coroutines that leave the frames alone and resume nobody, have called
    [resume()] on every waiter of the holder twice, in order both times, and
    the holder still has the waiters. *)
Theorem publish_twice_resumes_twice k w c hd v1 v2 (publish1 publish2 : M T unit) w' :
  frames w !! c = Some hd → mut hd = false →
  publish1 = return_value k c v1 ∨ publish1 = return_void k c →
  publish2 = return_value k c v2 ∨ publish2 = return_void k c →
  continuations_keep undisturbed k →
  (publish1 ;; publish2) w = Done tt w' →
  resumed (events_since (length (trace w)) w') = to_resume hd ++ to_resume hd ∧
  to_resume <$> frames w' !! c = Some (to_resume hd) ∧
  returned <$> frames w' !! c = Some true.
Proof.
  intros E Hm H1 H2 Hq Hrun. apply bind_Done in Hrun as ([] & w1 & Hrun1 & Hrun2).
  destruct (publish_resumed k w c hd v1 publish1 w1 E Hm H1 Hq Hrun1)
    as (v1' & evs1 & Hfr1 & Ht1 & Hevs1).
  assert (frames w1 !! c = Some (mkHolder false true v1' (to_resume hd))) as E1
    by (rewrite Hfr1; apply lookup_insert_eq).
  destruct (publish_resumed k w1 c _ v2 publish2 w' E1 eq_refl H2 Hq Hrun2)
    as (v2' & evs2 & Hfr2 & Ht2 & Hevs2).
  unfold events_since. rewrite Ht2, Ht1, <- !app_assoc, drop_app_length, Hfr2.
  rewrite lookup_insert_eq, !resumed_app, Hevs1, Hevs2. cbn [to_resume]. simpl.
  by rewrite app_nil_r.
Qed.


(** X5: [co_return v;] on a live frame publishes and then runs off the end
    ([final_suspend] is [suspend_never]): what is left of it when the first
    waiter is entered is the loop over the waiters, the unlock and the
    destruction of the frame.  When it returns from coroutines that leave
    the frames alone and resume nobody, [resume()] has been called on every
    waiter, in order, before the unlock and the destruction, and the frame
    with the value just stored is gone, so nobody can read the value
    afterwards. *)
Theorem co_return_resumes_then_destroys k w c hd v :
  frames w !! c = Some hd → mut hd = false →
  co_return k c v w =
    (for_each (to_resume hd) (resume k) ;; unlock c ;; destroy c)
      (mkWorld (<[c := mkHolder true true v (to_resume hd)]> (frames w))
               (trace w ++ [EvLock c; EvWrite c value_field; EvWrite c returned_field;
                            EvRead c to_resume_field])
               (executor w)) ∧
  (∀ w', continuations_keep undisturbed k →
     co_return k c v w = Done tt w' →
     frames w' = delete c (frames w) ∧
     (∃ evs, events_since (length (trace w)) w' = evs ++ [EvUnlock c; EvDestroy c] ∧
             resumed evs = to_resume hd) ∧
     Task_await_resume (mkTask (Some c)) w' = Undefined ∧
     Task_await_ready (mkTask (Some c)) w' = Undefined).
Proof.
  intros E Hm. unfold co_return, final_suspend_point, final_suspend. split.
  - unfold mbind at 1, M_bind at 1, bind at 1.
    rewrite (return_value_spec k w c hd v E Hm).
    unfold mbind, M_bind, bind.
    by match goal with |- context [for_each ?hs ?b ?w1] => destruct (for_each hs b w1) end.
  - intros w' Hq Hrun. apply bind_Done in Hrun as ([] & w1 & Hpub & Hdestroy).
    destruct (publish_resumed k w c hd v _ w1 E Hm (or_introl eq_refl) Hq Hpub)
      as (v' & evs & Hfr1 & Ht1 & Hevs).
    revert Hdestroy. unfold destroy. exec. rewrite Hfr1, lookup_insert_eq.
    intros H. injection H as <-. cbn [frames trace].
    rewrite Hfr1, delete_insert_eq, Ht1.
    split; [done|]. split.
    + exists evs. split; [|done]. unfold events_since. cbn [trace].
      by rewrite <- !app_assoc, drop_app_length.
    + edestruct (dangling_undefined k) as (Hr & _ & Hv & _);
        [|split; [exact Hv|exact Hr]].
      cbn [frames]. apply lookup_delete_eq.
Qed.

(** X6: a task whose body ran to completion inside the call cannot be
    awaited.  For every world, after the call of a coroutine whose body is
    [co_return v;], [await_ready], [await_suspend], [await_resume] and the
    whole [co_await] on the returned task dereference the freed frame. *)
Theorem completed_task_cannot_be_awaited k w (indeterminate v : T) h :
  (t ← call_co_return k indeterminate v; Task_await_ready t) w = Undefined ∧
  (t ← call_co_return k indeterminate v; Task_await_suspend k t h) w = Undefined ∧
  (t ← call_co_return k indeterminate v; Task_await_resume t) w = Undefined ∧
  (t ← call_co_return k indeterminate v; co_await_Task k t h) w = Undefined.
Proof.
  pose proof (call_co_return_spec k w indeterminate v) as Hcall. simpl in Hcall.
  assert (∀ A (f : Task → M T A),
            (t ← call_co_return k indeterminate v; f t) w =
            match call_co_return k indeterminate v w with
            | Done t w' => f t w'
            | Terminated w' => Terminated w'
            | Blocked => Blocked
            | Undefined => Undefined
            end) as Hbind by done.
  rewrite !Hbind, Hcall.
  edestruct (dangling_undefined k
               (mkWorld (frames w)
                  (trace w ++ [EvLock (fresh (dom (frames w)));
                               EvWrite (fresh (dom (frames w))) value_field;
                               EvWrite (fresh (dom (frames w))) returned_field;
                               EvRead (fresh (dom (frames w))) to_resume_field;
                               EvUnlock (fresh (dom (frames w)));
                               EvDestroy (fresh (dom (frames w)))])
                  (executor w)) (fresh (dom (frames w))))
    as (Hr & Hs & Hv & _ & Hc & _); [apply not_elem_of_dom, is_fresh|].
  by rewrite Hr, Hs, Hv, Hc.
Qed.

(** [co_await] on a task whose holder has not returned and whose mutex is
    free suspends the awaiting coroutine. *)
Lemma co_await_Task_pending k w c hd h :
  frames w !! c = Some hd → returned hd = false → mut hd = false →
  co_await_Task k (mkTask (Some c)) h w =
    Done None
         (mkWorld (<[c := mkHolder false false (value hd) (to_resume hd ++ [h])]>
                     (frames w))
                  (trace w ++ [EvRead c returned_field; EvLock c; EvRead c returned_field;
                               EvWrite c to_resume_field; EvUnlock c])
                  (executor w)).
Proof.
  intros E Hr Hm.
  unfold co_await_Task, Task_await_ready, Task_await_resume, Task_await_suspend.
  exec. by tidy.
Qed.

(** X7: [co_await] on a task with a live frame.  When the holder has
    returned, the awaiting coroutine goes on with the stored value: nothing
    is locked (the mutex may even be held by somebody else), nothing is
    registered, no holder changes.  When it has not, and the mutex is free,
    the coroutine is suspended: its handle is appended to the waiters and
    nobody is resumed. *)
Theorem co_await_Task_spec k w c hd h :
  frames w !! c = Some hd →
  (returned hd = true →
     co_await_Task k (mkTask (Some c)) h w =
       Done (Some (value hd))
            (mkWorld (frames w)
                     (trace w ++ [EvRead c returned_field; EvRead c value_field])
                     (executor w))) ∧
  (returned hd = false → mut hd = false →
     co_await_Task k (mkTask (Some c)) h w =
       Done None
            (mkWorld (<[c := mkHolder false false (value hd) (to_resume hd ++ [h])]>
                        (frames w))
                     (trace w ++ [EvRead c returned_field; EvLock c; EvRead c returned_field;
                                  EvWrite c to_resume_field; EvUnlock c])
                     (executor w))) ∧
  (returned hd = false → mut hd = true →
     co_await_Task k (mkTask (Some c)) h w = Blocked).
Proof.
  intros E.
  unfold co_await_Task, Task_await_ready, Task_await_resume, Task_await_suspend.
  repeat split; intros; exec; by tidy.
Qed.

(** *** Invariants of every operation *)

Lemma frame_kept_emit c e : preserves (frame_kept (T := T) c) (emit e).
Proof. intros w [] w' H. by injection H as <-. Qed.

Lemma run_op_frame_kept k (TELEMETRY : bool) (o : Op T) c w v w' :
  continuations_keep (frame_kept c) k →
  op_target o w ≠ Some c →
  run_op k TELEMETRY o w = Done v w' → frame_kept c w w'.
Proof.
  intros Hk Hne Hrun.
  assert (∀ t h, handle t ≠ Some c → preserves (frame_kept c) (Task_await_suspend k t h))
    as Htask.
  { intros t h Ht.
    eapply Task_await_suspend_keeps with (target := λ c0, c0 ≠ c);
      first [ exact Hk | apply _ | by intros; apply frame_kept_update
            | by intros; apply frame_kept_emit | congruence ]. }
  assert (∀ c1 v1, c1 ≠ c → preserves (frame_kept c) (return_value k c1 v1)) as Hvalue.
  { intros c1 v1 Hc1.
    eapply return_value_keeps with (target := λ c0, c0 ≠ c);
      first [ exact Hk | apply _ | by intros; apply frame_kept_update
            | by intros; apply frame_kept_emit | congruence ]. }
  assert (∀ c1, c1 ≠ c → preserves (frame_kept c) (return_void k c1)) as Hvoid.
  { intros c1 Hc1.
    eapply return_void_keeps with (target := λ c0, c0 ≠ c);
      first [ exact Hk | apply _ | by intros; apply frame_kept_update
            | by intros; apply frame_kept_emit | congruence ]. }
  destruct (resumes o) eqn:Hres.
  - destruct o; try discriminate Hres; simpl in Hrun, Hne;
      apply bind_Done in Hrun as ([] & w1 & Hrun & Hret); injection Hret as _ <-.
    + apply Async_await_suspend_Done in Hrun as [Hi Hrun]. rewrite Hi in Hne.
      by eapply (Htask (mkTask (pself a))).
    + eapply Hvalue; [|exact Hrun]. congruence.
    + eapply Hvoid; [|exact Hrun]. congruence.
    + by eapply (Htask t).
  - pose proof (plain_op_frame_kept_aux k TELEMETRY o c Hres w) as Ha.
    rewrite Hrun in Ha. by apply Ha.
Qed.

(** X8: every [lock_guard] is released.  If no mutex is held before a
    sequence of operations and the sequence runs to its end, no mutex of a
    live frame is held after it, as long as the coroutines it resumes come
    back without a mutex they took. *)
Theorem operations_release_every_lock k (TELEMETRY : bool) (os : list (Op T)) w w' :
  continuations_keep no_new_lock k →
  quiescent w → run_ops k TELEMETRY os w = Done tt w' → quiescent w'.
Proof.
  intros Hk Hq Hrun. apply (no_new_lock_quiescent w w' Hq).
  eapply (run_ops_preserves no_new_lock k TELEMETRY os); [|exact Hrun].
  intros o. by apply run_op_no_new_lock.
Qed.


(** X10: no operation removes a waiter.  While the frame of a holder lives,
    its waiter list after any sequence of operations starts with the waiter
    list before it: waiters are only ever appended, and a publish leaves
    them in the list.  This holds through resumed coroutines that remove
    none themselves. *)
Theorem waiters_are_never_removed k (TELEMETRY : bool) (os : list (Op T)) w w' c hd :
  continuations_keep (waiters_kept c) k →
  frames w !! c = Some hd →
  run_ops k TELEMETRY os w = Done tt w' →
  EvDestroy c ∉ events_since (length (trace w)) w' →
  ∃ hd', frames w' !! c = Some hd' ∧ to_resume hd `prefix_of` to_resume hd'.
Proof.
  intros Hk E Hrun Hlive.
  destruct (run_ops_waiters_kept k TELEMETRY os c Hk w tt w' Hrun) as (evs & Ht & Hev).
  unfold events_since in Hlive. rewrite Ht, drop_app_length in Hlive.
  destruct Hev as [Hev|Hev]; [done|]. by apply Hev.
Qed.

(** *** Telemetry counters *)

(** X11: what [Async::await_ready] counts when [TELEMETRY] is defined.  A
    call increments exactly one counter, by one modulo 2^64:
    [total_immediate_ready] on an immediate awaitable,
    [total_awaitable_ready] on a deferred one whose holder has returned,
    [total_awaitable_need_to_wait] on one whose holder has not.  Without
    [TELEMETRY] a call changes no counter.  A counter that holds the
    largest [size_t] goes back to 0. *)
Theorem await_ready_counts a w :
  (is_immediate a = true →
     ∃ w', Async_await_ready true a w = Done true w' ∧
           executor w' = stats_incr immediate_ready (executor w)) ∧
  (is_immediate a = false →
     ∀ c hd, pself a = Some c → frames w !! c = Some hd → mut hd = false →
     ∃ w', Async_await_ready true a w = Done (returned hd) w' ∧
           executor w' =
             stats_incr (if returned hd then awaitable_ready else awaitable_need_to_wait)
                        (executor w)) ∧
  (∀ b w', Async_await_ready false a w = Done b w' → executor w' = executor w) ∧
  size_t_incr (2 ^ 64 - 1) = 0%N ∧
  (∀ n, (n < 2 ^ 64 - 1)%N → size_t_incr n = (n + 1)%N).
Proof.
  split; [|split; [|split; [|split]]].
  - intros Hi. unfold Async_await_ready. exec. by eexists.
  - intros Hi c hd Hp E Hm. unfold Async_await_ready.
    destruct (returned hd) eqn:Hr; exec; by eexists.
  - intros b w' H.
    pose proof (plain_op_counters_aux (λ _, ret tt) false (OpAsyncAwaitReady a)
                  (or_introl eq_refl) eq_refl w) as Ha.
    simpl in Ha. unfold mbind, M_bind, bind in Ha. rewrite H in Ha. exact Ha.
  - reflexivity.
  - intros n Hn. unfold size_t_incr. apply N.mod_small. lia.
Qed.

(** X12: only [Async::await_ready] under [TELEMETRY] touches the counters.
    A sequence of operations that runs to its end, resuming coroutines that
    leave the counters alone, leaves the three counters as they were when
    [TELEMETRY] is not defined, and also when it is defined and no operation
    of the sequence is an [Async::await_ready]. *)
Theorem only_await_ready_counts k (TELEMETRY : bool) (os : list (Op T)) : ∀ w w',
  continuations_keep counters_kept k →
  TELEMETRY = false ∨ Forall (λ o, is_await_ready o = false) os →
  run_ops k TELEMETRY os w = Done tt w' →
  executor w' = executor w.
Proof.
  induction os as [|o os IH]; intros w w' Hk Hor H.
  - by injection H as <-.
  - simpl in H. apply bind_Done in H as (x & w1 & Hstep & Hrest).
    assert (TELEMETRY = false ∨ is_await_ready o = false) as Ho.
    { destruct Hor as [->|Hall]; [by left|right]. by inversion Hall. }
    assert (TELEMETRY = false ∨ Forall (λ o, is_await_ready o = false) os) as Hos.
    { destruct Hor as [->|Hall]; [by left|right]. by inversion Hall. }
    apply (run_op_counters_kept k TELEMETRY o Ho Hk) in Hstep.
    unfold counters_kept in Hstep. rewrite <- Hstep. by apply IH.
Qed.

(** *** Creating and moving tasks *)

(** X13: the task that [get_return_object] hands out.  Its handle is the
    address of a frame that was not live before; the new holder has not
    returned, has no waiter and a free mutex; no mutex that was free becomes
    held; the task is not ready, and the first [co_await] on it suspends the
    awaiting coroutine as the only waiter. *)
Theorem new_task_is_pending k w (indeterminate : T) h :
  ∃ c w', get_return_object indeterminate w = Done (mkTask (Some c)) w' ∧
          frames w !! c = None ∧
          frames w' = <[c := mkHolder false false indeterminate []]> (frames w) ∧
          trace w' = trace w ∧
          (quiescent w → quiescent w') ∧
          (∃ w'', Task_await_ready (mkTask (Some c)) w' = Done false w'' ∧
                  frames w'' = frames w') ∧
          (∃ w'', co_await_Task k (mkTask (Some c)) h w' = Done None w'' ∧
                  to_resume <$> frames w'' !! c = Some [h] ∧
                  resumed (events_since (length (trace w')) w'') = []).
Proof.
  assert (frames w !! fresh (dom (frames w)) = None) as Hfresh
    by apply not_elem_of_dom, is_fresh.
  eexists _, _. split; [reflexivity|]. cbn [frames trace].
  split; [done|]. split; [done|]. split; [done|]. split.
  { intros Hq. by apply map_Forall_insert_2. }
  split.
  - unfold Task_await_ready. eexists. exec. by split.
  - eexists. split.
    { apply (co_await_Task_pending k _ _ (mkHolder false false indeterminate []));
        [apply lookup_insert_eq|done|done]. }
    cbn [frames trace value to_resume].
    split; [by rewrite lookup_insert_eq|].
    unfold events_since. cbn [trace]. by rewrite drop_app_length.
Qed.


(** *** Waiters that come back, and waiters that do not *)

(** X15: first in, first out.  Waiters registered in the order [ws] on a
    holder that has not returned, through [Task::await_suspend] or through
    [Async::await_suspend] on a deferred awaitable, are in the list in that
    order behind the waiters that were there; a publish that then returns
    from coroutines that leave the frames alone and resume nobody has called
    [resume()] on each of them exactly once, in the order of the list.  If
    the waiters await the holder through its task, the publish does
    return. *)
Theorem publish_resumes_in_registration_order k w c hd ws v
    (suspend : coroutine_handle → M T unit) (publish : M T unit) :
  frames w !! c = Some hd → mut hd = false → returned hd = false →
  (suspend = Task_await_suspend k (mkTask (Some c)) ∨
   ∃ a, is_immediate a = false ∧ pself a = Some c ∧ suspend = Async_await_suspend k a) →
  (publish = return_value k c v ∨ publish = return_void k c) →
  (∀ w', continuations_keep undisturbed k →
     (for_each ws suspend ;; publish) w = Done tt w' →
     resumed (events_since (length (trace w)) w') = to_resume hd ++ ws ∧
     to_resume <$> frames w' !! c = Some (to_resume hd ++ ws)) ∧
  (k = awaiting_Task (mkTask (Some c)) →
   ∃ w', (for_each ws suspend ;; publish) w = Done tt w' ∧
         resumed (events_since (length (trace w)) w') = to_resume hd ++ ws).
Proof.
  intros E Hm Hr Hs Hp.
  assert (∀ w0, for_each ws suspend w0 =
                for_each ws (Task_await_suspend k (mkTask (Some c))) w0) as Hreg.
  { destruct Hs as [-> | (a & Hi & Hps & ->)]; [done|].
    apply for_each_ext. intros h w0. by apply Async_await_suspend_deferred. }
  destruct (register_pending k ws w c hd E Hm Hr) as (evs & Hrun & Hevs).
  rewrite <- Hreg in Hrun.
  split.
  - intros w' Hq H. apply bind_Done in H as ([] & w1 & H1 & H2).
    rewrite Hrun in H1. injection H1 as <-.
    eapply (publish_resumed k _ c _ v publish w') in H2
        as (v' & evs2 & Hfr & Ht & Hevs2);
      [|apply lookup_insert_eq|done|done|done].
    cbn [frames trace to_resume] in Hfr, Ht, Hevs2.
    unfold events_since. rewrite Ht, Hfr, <- !app_assoc, drop_app_length.
    rewrite lookup_insert_eq, !resumed_app, Hevs, Hevs2. simpl.
    by rewrite app_nil_r.
  - intros ->. unfold mbind at 1, M_bind at 1, bind at 1. rewrite Hrun.
    edestruct (publish_awaiting_Task
                 (mkWorld (<[c := mkHolder false false (value hd) (to_resume hd ++ ws)]>
                             (frames w)) (trace w ++ evs) (executor w))
                 c (mkHolder false false (value hd) (to_resume hd ++ ws)) v publish)
      as (w' & v' & evs2 & -> & Hfr & Ht & Hevs2);
      [apply lookup_insert_eq|done|done|].
    exists w'. split; [done|]. cbn [trace to_resume] in Ht, Hevs2.
    unfold events_since. rewrite Ht, <- !app_assoc, drop_app_length.
    by rewrite resumed_app, Hevs, Hevs2.
Qed.

(** X16: a suspend that finds the holder returned enters the coroutine
    while it holds the mutex.  A coroutine that awaits the holder through an
    [Async] then blocks in its [await_resume], on the mutex that its own
    [await_suspend] holds; one that awaits it through the task reads the
    value and comes back, and the suspend leaves the holders as they
    were. *)
Theorem suspend_on_returned_enters_under_lock w c hd a h :
  frames w !! c = Some hd → mut hd = false → returned hd = true →
  is_immediate a = false → pself a = Some c →
  Async_await_suspend (awaiting_Async a) a h w = Blocked ∧
  Task_await_suspend (awaiting_Async a) (mkTask (Some c)) h w = Blocked ∧
  Task_await_suspend (awaiting_Task (mkTask (Some c))) (mkTask (Some c)) h w =
    Done tt (mkWorld (frames w)
                     (trace w ++ [EvLock c; EvRead c returned_field; EvResume h;
                                  EvRead c value_field; EvUnlock c])
                     (executor w)).
Proof.
  intros E Hm Hr Hi Hp.
  rewrite (Async_await_suspend_deferred _ a c h w Hi Hp).
  rewrite !(Task_await_suspend_completed _ w c hd h E Hm Hr).
  unfold mbind, M_bind, bind.
  rewrite (awaiting_Async_blocks a c (mkHolder true true (value hd) (to_resume hd)))
    by (try done; apply lookup_insert_eq).
  rewrite (awaiting_Task_spec c (mkHolder true true (value hd) (to_resume hd)))
    by apply lookup_insert_eq.
  erewrite unlock_spec by apply lookup_insert_eq.
  cbn [frames trace executor returned value to_resume].
  rewrite insert_insert_eq, <- !app_assoc. repeat split.
  do 2 f_equal. rewrite <- Hr. by apply insert_unlocked_id.
Qed.

(** ** The sample coroutines *)

(** A coroutine that awaits through a task changes nothing but the log, to
    which it adds a read: it keeps every relation of this development. *)
Lemma awaiting_Task_undisturbed t :
  continuations_keep undisturbed (awaiting_Task (T := T) t).
Proof.
  intros h w w' H. apply awaiting_Task_Done in H as (c & _ & ->).
  split; [done|]. by eexists.
Qed.

Lemma awaiting_Task_evolves t c :
  continuations_keep (evolves c) (awaiting_Task (T := T) t).
Proof.
  intros h w w' H. apply awaiting_Task_Done in H as (c0 & _ & ->).
  eexists. split; [done|]. right. eauto.
Qed.

Lemma awaiting_Task_waiters_kept t c :
  continuations_keep (waiters_kept c) (awaiting_Task (T := T) t).
Proof.
  intros h w w' H. apply awaiting_Task_Done in H as (c0 & _ & ->).
  eexists. split; [done|]. right. eauto.
Qed.

Lemma awaiting_Task_counters_kept t :
  continuations_keep counters_kept (awaiting_Task (T := T) t).
Proof. intros h w w' H. by apply awaiting_Task_Done in H as (c0 & _ & ->). Qed.

Lemma awaiting_Task_frame_kept t c :
  continuations_keep (frame_kept c) (awaiting_Task (T := T) t).
Proof. intros h w w' H. by apply awaiting_Task_Done in H as (c0 & _ & ->). Qed.

Lemma awaiting_Task_no_new_lock t :
  continuations_keep no_new_lock (awaiting_Task (T := T) t).
Proof.
  intros h w w' H. apply awaiting_Task_Done in H as (c0 & _ & ->).
  intros c hd. eauto.
Qed.

Lemma awaiting_Task_same_but_counters t :
  same_but_counters (awaiting_Task (T := T) t) (awaiting_Task t).
Proof.
  intros h w s1 s2. destruct t as [[c|]]; unfold awaiting_Task, Task_await_resume; exec;
    [|done].
  unfold with_stats. cbn [frames].
  destruct (frames w !! c) eqn:E; simpl; rewrite ?E; simpl; done.
Qed.

(** A coroutine that awaits through an [Async] and comes back has taken
    and released the mutex and read the value under it. *)
Lemma awaiting_Async_undisturbed a :
  continuations_keep undisturbed (awaiting_Async (T := T) a).
Proof.
  intros h w w'. unfold awaiting_Async, CoroutineAwaitResume_await_resume.
  destruct a as [[c|] iv [|]]; exec; try done.
  - intros [= <-]. split; [done|]. exists []. by rewrite app_nil_r.
  - destruct (frames w !! c) as [[[|] [|] v ws]|] eqn:E; exec; try done.
    intros [= <-]. cbn [frames trace]. split.
    + rewrite !insert_insert_eq. by apply insert_id.
    + rewrite <- !app_assoc. by eexists.
  - intros [= <-]. split; [done|]. exists []. by rewrite app_nil_r.
Qed.

End Proofs.


(** ** The claims at the sample worlds *)

Ltac not_logged :=
  let H := fresh "H" in
  unfold events_since; simpl; intros H;
  repeat (apply elem_of_cons in H as [H|H]; [discriminate H|]);
  by apply elem_of_nil in H.

(** C1, at the sample world: one publish on the holder with waiters 7 and 8.
    If they await the holder through an [Async], the publish blocks; if they
    await it through the task, they run between the lock and the unlock. *)
Lemma publish_resumes_under_lock_witness :
  frames world_pending !! 0 = Some holder_pending ∧ mut holder_pending = false ∧
  is_immediate (Await_deferred 0%Z 0) = false ∧ pself (Await_deferred 0%Z 0) = Some 0 ∧
  to_resume holder_pending ≠ [] ∧
  return_value waiters_on_Async 0 42%Z world_pending = Blocked ∧
  ∃ w', return_value waiters_on_Task 0 42%Z world_pending = Done tt w' ∧
        resumes_unlocked 0 false (events_since (length (trace world_pending)) w') = false.
Proof.
  do 5 (split; [done|]).
  destruct (publish_resumes_under_lock waiters_on_Task world_pending 0 holder_pending 42%Z
              eq_refl eq_refl) as (_ & Hblocks & w' & Hrun & _ & _ & Hunlocked & _).
  split.
  - refine (proj1 (Hblocks (Await_deferred 0%Z 0) _ _ _));
      [reflexivity|reflexivity|discriminate].
  - exists w'. split; [exact Hrun|]. apply Hunlocked. discriminate.
Defined.

(** C1, the failing run in full: with the waiters 7 and 8 awaiting the
    holder through an [Async], [return_value(42)] and [return_void()] block;
    with them awaiting it through the task, [return_value(42)] returns, both
    coroutines have run while the mutex was held, and the waiter list has
    not been swapped out. *)
Lemma publish_resumes_outside_lock_fails :
  return_value waiters_on_Async 0 42%Z world_pending = Blocked ∧
  return_void waiters_on_Async 0 world_pending = Blocked ∧
  ∃ w', return_value waiters_on_Task 0 42%Z world_pending = Done tt w' ∧
        trace w' = [EvLock 0; EvWrite 0 value_field; EvWrite 0 returned_field;
                    EvRead 0 to_resume_field; EvResume 7; EvRead 0 value_field;
                    EvResume 8; EvRead 0 value_field; EvUnlock 0] ∧
        resumes_unlocked 0 false (trace w') = false ∧
        to_resume <$> frames w' !! 0 = Some [7; 8].
Proof.
  split; [vm_compute; reflexivity|]. split; [vm_compute; reflexivity|].
  eexists. split; [vm_compute; reflexivity|].
  repeat split; vm_compute; reflexivity.
Qed.

(** C2, at the sample worlds: [Task::await_ready] and [Task::await_resume]
    read [returned] and [value] with no lock taken, where
    [Async::await_ready] and [CoroutineAwaitResume::await_resume] read the
    same members of the same holder between lock and unlock. *)
Theorem Task_reads_without_lock :
  (∃ w', Task_await_ready (mkTask (Some 0)) world_pending = Done false w' ∧
         trace w' = [EvRead 0 returned_field] ∧
         accesses_locked 0 false (trace w') = false) ∧
  (∃ w', Task_await_resume (mkTask (Some 0)) world_published = Done 42%Z w' ∧
         trace w' = [EvRead 0 value_field] ∧
         accesses_locked 0 false (trace w') = false) ∧
  (∃ w', Async_await_ready false (Await_deferred 0%Z 0) world_pending = Done false w' ∧
         trace w' = [EvLock 0; EvRead 0 returned_field; EvUnlock 0] ∧
         accesses_locked 0 false (trace w') = true) ∧
  (∃ w', CoroutineAwaitResume_await_resume (Await_deferred 0%Z 0) world_published
           = Done 42%Z w' ∧
         trace w' = [EvLock 0; EvRead 0 returned_field; EvRead 0 value_field; EvUnlock 0] ∧
         accesses_locked 0 false (trace w') = true).
Proof.
  repeat split; eexists; (split; [vm_compute; reflexivity|]);
    split; vm_compute; reflexivity.
Qed.

(** C3, at the sample world: on a holder that has not returned,
    [Task::await_resume] returns whatever [value] holds, where
    [CoroutineAwaitResume::await_resume] on the same holder terminates the
    process. *)
Theorem Task_await_resume_before_completion :
  returned <$> frames world_pending !! 0 = Some false ∧
  (∃ w', Task_await_resume (mkTask (Some 0)) world_pending = Done 0%Z w' ∧
         frames w' = frames world_pending) ∧
  (∃ w', CoroutineAwaitResume_await_resume (Await_deferred 0%Z 0) world_pending
           = Terminated w').
Proof.
  split; [reflexivity|].
  split; eexists; [split|]; vm_compute; reflexivity.
Qed.

(** C5, on the coroutine of the source: the task that [foo()] returns cannot
    be destroyed. *)
Lemma foo_destructor_undefined :
  (∃ w', foo nobody_suspended world_empty = Done (mkTask (Some 0)) w' ∧ frames w' = ∅ ∧
         trace w' = [EvLock 0; EvWrite 0 value_field; EvWrite 0 returned_field;
                     EvRead 0 to_resume_field; EvUnlock 0; EvDestroy 0]) ∧
  (t ← foo nobody_suspended; Task_destructor t) world_empty = Undefined.
Proof.
  split; [eexists; split; [vm_compute; reflexivity|split; vm_compute; reflexivity]|].
  vm_compute; reflexivity.
Qed.

(** C4, at the sample world: the holder that has returned 42 stays returned
    through a second publish, which stores 7. *)
Lemma returned_monotone_publish_overwrites_witness :
  frames world_published !! 0 = Some holder_published ∧
  returned holder_published = true ∧ mut holder_published = false ∧
  ∃ w', run_ops waiters_on_Task false [OpReturnValue 0 7%Z] world_published = Done tt w' ∧
        (∃ hd', frames w' !! 0 = Some hd' ∧ returned hd' = true) ∧
        ∃ w'', return_value waiters_on_Task 0 7%Z world_published = Done tt w'' ∧
               frames w'' !! 0 = Some (mkHolder false true 7%Z [7; 8]).
Proof.
  split; [reflexivity|]. split; [reflexivity|]. split; [reflexivity|].
  eexists. split; [vm_compute; reflexivity|].
  match goal with |- (∃ hd', frames ?w' !! _ = _ ∧ _) ∧ _ =>
    destruct (returned_monotone_publish_overwrites waiters_on_Task false
                [OpReturnValue 0 7%Z] world_published w' 0 holder_published eq_refl)
      as [Hmono Hpub]
  end.
  split.
  - apply Hmono; [reflexivity|apply awaiting_Task_evolves|vm_compute; reflexivity|not_logged].
  - eexists. split; [vm_compute; reflexivity|].
    destruct (Hpub eq_refl 7%Z) as (_ & _ & Hframe).
    apply Hframe; [apply awaiting_Task_frame_kept|vm_compute; reflexivity].
Defined.

(** C4 as stated fails: a second publish on the holder that has returned 42
    is neither rejected nor fatal; it returns and has replaced 42 by 7. *)
Lemma second_publish_overwrites :
  returned <$> frames world_published_alone !! 0 = Some true ∧
  value <$> frames world_published_alone !! 0 = Some 42%Z ∧
  ∃ w', return_value nobody_suspended 0 7%Z world_published_alone = Done tt w' ∧
        value <$> frames w' !! 0 = Some 7%Z ∧
        returned <$> frames w' !! 0 = Some true.
Proof.
  split; [reflexivity|]. split; [reflexivity|].
  eexists. split; [vm_compute; reflexivity|].
  split; vm_compute; reflexivity.
Qed.

(** C6, at the sample world without waiters: 7 and then 8 register through
    an [Async] on the holder, and [return_value(42)] blocks. *)
Lemma publish_blocks_on_Async_waiter_witness :
  frames world_pending_alone !! 0 = Some (mkHolder false false 0%Z []) ∧
  is_immediate (Await_deferred 0%Z 0) = false ∧ pself (Await_deferred 0%Z 0) = Some 0 ∧
  ∃ w1, for_each [7; 8] (Async_await_suspend waiters_on_Async (Await_deferred 0%Z 0))
          world_pending_alone = Done tt w1 ∧
        to_resume <$> frames w1 !! 0 = Some [7; 8] ∧
        return_value waiters_on_Async 0 42%Z w1 = Blocked.
Proof.
  repeat (split; [reflexivity|]).
  destruct (publish_blocks_on_Async_waiter world_pending_alone 0 (mkHolder false false 0%Z [])
              (Await_deferred 0%Z 0) [7; 8] 42%Z eq_refl eq_refl eq_refl eq_refl eq_refl)
    as (w1 & Hreg & E1 & _ & Hblocked & _); [discriminate|].
  exists w1. split; [exact Hreg|]. split; [by rewrite E1|exact Hblocked].
Defined.

(** C6, the failing run in full. *)
Lemma registered_Async_waiters_never_resumed :
  (for_each [7; 8] (Async_await_suspend waiters_on_Async (Await_deferred 0%Z 0)) ;;
   return_value waiters_on_Async 0 42%Z) world_pending_alone = Blocked ∧
  (for_each [7; 8] (Async_await_suspend waiters_on_Async (Await_deferred 0%Z 0)) ;;
   return_void waiters_on_Async 0) world_pending_alone = Blocked ∧
  ∃ w', (for_each [7; 8] (Task_await_suspend waiters_on_Task (mkTask (Some 0))) ;;
         return_value waiters_on_Task 0 42%Z) world_pending_alone = Done tt w' ∧
        resumed (trace w') = [7; 8].
Proof.
  split; [vm_compute; reflexivity|]. split; [vm_compute; reflexivity|].
  eexists. split; vm_compute; reflexivity.
Qed.


(** C8, at the sample worlds: a deferred awaitable on the pending holder is
    not ready. *)
Lemma Async_await_ready_spec_witness :
  is_immediate (Await_deferred 0%Z 0) = false ∧
  pself (Await_deferred 0%Z 0) = Some 0 ∧
  frames world_pending !! 0 = Some holder_pending ∧ mut holder_pending = false ∧
  ∃ w', Async_await_ready true (Await_deferred 0%Z 0) world_pending = Done false w' ∧
        frames w' = frames world_pending.
Proof.
  repeat (split; [reflexivity|]).
  destruct (Async_await_ready_spec nobody_suspended true (Await_deferred 0%Z 0) world_pending)
    as [_ Hdeferred].
  destruct (Hdeferred eq_refl 0 holder_pending eq_refl eq_refl eq_refl)
    as (w' & Hrun & Hframes & _).
  exists w'. split; assumption.
Defined.

(** C10, at the sample world: a publish that resumes 7 and 8, in a build
    with [TELEMETRY] and counters that hold something, and in a build
    without. *)
Lemma telemetry_never_gates_witness :
  same_but_counters waiters_on_Task waiters_on_Task ∧
  forget_stats_outcome
    (run_op waiters_on_Task true (OpReturnValue 0 42%Z)
       (with_stats (mkStats 3 1 4) world_pending)) =
  forget_stats_outcome
    (run_op waiters_on_Task false (OpReturnValue 0 42%Z)
       (with_stats Executor_initial world_pending)).
Proof.
  split; [apply awaiting_Task_same_but_counters|].
  destruct (telemetry_never_gates waiters_on_Task waiters_on_Task (OpReturnValue 0 42%Z) []
              (Await_deferred 0%Z 0) world_pending (mkStats 3 1 4) Executor_initial)
    as [Hsame _].
  exact (proj1 (Hsame (awaiting_Task_same_but_counters _))).
Defined.


(** ** The further properties at the sample worlds *)

Lemma world_two_frames_quiescent : quiescent world_two_frames.
Proof.
  unfold quiescent, world_two_frames. cbn [frames].
  apply map_Forall_insert_2; [reflexivity|].
  by apply map_Forall_singleton.
Defined.

(** X1, at the pending sample world: 42 is published and read back. *)
Lemma publish_then_read_witness :
  frames world_pending !! 0 = Some holder_pending ∧ mut holder_pending = false ∧
  is_immediate (Await_deferred 0%Z 0) = false ∧ pself (Await_deferred 0%Z 0) = Some 0 ∧
  ∃ w1 w2, return_value waiters_on_Task 0 42%Z world_pending = Done tt w1 ∧
           CoroutineAwaitResume_await_resume (Await_deferred 0%Z 0) w1 = Done 42%Z w2.
Proof.
  repeat (split; [reflexivity|]).
  destruct (publish_then_read waiters_on_Task world_pending 0 holder_pending 42%Z
              (Await_deferred 0%Z 0) eq_refl eq_refl eq_refl eq_refl) as [_ Hafter].
  eexists. 
  match goal with |- ∃ w2, ?run = Done tt ?w1 ∧ _ =>
    assert (run = Done tt w1) as Hrun by (vm_compute; reflexivity)
  end.
  destruct (Hafter _ (awaiting_Task_frame_kept _ 0) Hrun) as ((w2 & Hread & _) & _).
  exists w2. split; assumption.
Defined.

(** X2, at the sample worlds: terminated before the publish, 42 after. *)
Lemma await_resume_needs_returned_witness :
  frames world_pending !! 0 = Some holder_pending ∧ mut holder_pending = false ∧
  returned holder_pending = false ∧
  frames world_published !! 0 = Some holder_published ∧ mut holder_published = false ∧
  returned holder_published = true ∧
  is_immediate (Await_deferred 0%Z 0) = false ∧ pself (Await_deferred 0%Z 0) = Some 0 ∧
  (∃ w', CoroutineAwaitResume_await_resume (Await_deferred 0%Z 0) world_pending
           = Terminated w') ∧
  (∃ w', CoroutineAwaitResume_await_resume (Await_deferred 0%Z 0) world_published
           = Done 42%Z w').
Proof.
  repeat (split; [reflexivity|]).
  split.
  - destruct (await_resume_needs_returned world_pending 0 holder_pending
                (Await_deferred 0%Z 0) eq_refl eq_refl eq_refl eq_refl) as [Hpending _].
    exact (proj1 (Hpending eq_refl)).
  - destruct (await_resume_needs_returned world_published 0 holder_published
                (Await_deferred 0%Z 0) eq_refl eq_refl eq_refl eq_refl) as [_ Hdone].
    eexists. exact (proj1 (Hdone eq_refl)).
Defined.

(** X3, at the pending sample world: [resume()] is called on 7 and 8
    twice. *)
Lemma publish_twice_resumes_twice_witness :
  frames world_pending !! 0 = Some holder_pending ∧ mut holder_pending = false ∧
  ∃ w', (return_value waiters_on_Task 0 1%Z ;; return_value waiters_on_Task 0 2%Z)
          world_pending = Done tt w' ∧
        resumed (events_since (length (trace world_pending)) w') = [7; 8; 7; 8].
Proof.
  split; [reflexivity|]. split; [reflexivity|].
  eexists. split; [vm_compute; reflexivity|].
  eapply (publish_twice_resumes_twice waiters_on_Task world_pending 0 holder_pending
            1%Z 2%Z _ _ _ eq_refl eq_refl (or_introl eq_refl) (or_introl eq_refl)
            (awaiting_Task_undisturbed _)).
  vm_compute; reflexivity.
Defined.


(** X5, at the pending sample world. *)
Lemma co_return_resumes_then_destroys_witness :
  frames world_pending !! 0 = Some holder_pending ∧ mut holder_pending = false ∧
  ∃ w', co_return waiters_on_Task 0 42%Z world_pending = Done tt w' ∧
        frames w' = delete 0 (frames world_pending) ∧
        Task_await_resume (mkTask (Some 0)) w' = Undefined.
Proof.
  split; [reflexivity|]. split; [reflexivity|].
  eexists.
  match goal with |- ?run = Done tt ?w1 ∧ _ =>
    assert (run = Done tt w1) as Hrun by (vm_compute; reflexivity)
  end.
  destruct (co_return_resumes_then_destroys waiters_on_Task world_pending 0 holder_pending
              42%Z eq_refl eq_refl) as [_ Hdone].
  destruct (Hdone _ (awaiting_Task_undisturbed _) Hrun) as (Hfr & _ & Hread & _).
  repeat split; assumption.
Defined.

(** X7, at the sample worlds: ready with the mutex held, suspended with the
    mutex free, blocked on a pending holder whose mutex is held. *)
Lemma co_await_Task_spec_witness :
  frames world_published_locked !! 0 = Some (mkHolder true true 42%Z [7; 8]) ∧
  frames world_pending !! 0 = Some holder_pending ∧
  frames world_pending_locked !! 0 = Some (mkHolder true false 0%Z [7; 8]) ∧
  (∃ w', co_await_Task waiters_on_Task (mkTask (Some 0)) 9 world_published_locked
           = Done (Some 42%Z) w') ∧
  (∃ w', co_await_Task waiters_on_Task (mkTask (Some 0)) 9 world_pending = Done None w') ∧
  co_await_Task waiters_on_Task (mkTask (Some 0)) 9 world_pending_locked = Blocked.
Proof.
  repeat (split; [reflexivity|]).
  split; [|split].
  - eexists.
    exact (proj1 (co_await_Task_spec waiters_on_Task world_published_locked 0 _ 9 eq_refl)
             eq_refl).
  - eexists.
    exact (proj1 (proj2 (co_await_Task_spec waiters_on_Task world_pending 0 _ 9 eq_refl))
             eq_refl eq_refl).
  - exact (proj2 (proj2 (co_await_Task_spec waiters_on_Task world_pending_locked 0 _ 9
                           eq_refl))
             eq_refl eq_refl).
Defined.

(** X8, at the world with two frames. *)
Lemma operations_release_every_lock_witness :
  quiescent world_two_frames ∧
  ∃ w', run_ops waiters_on_Task true
          [OpTaskAwaitSuspend (mkTask (Some 0)) 9; OpReturnValue 0 42%Z;
           OpAsyncAwaitReady (Await_deferred 0%Z 1)] world_two_frames
          = Done tt w' ∧
        quiescent w'.
Proof.
  split; [exact world_two_frames_quiescent|].
  eexists. split; [vm_compute; reflexivity|].
  eapply (operations_release_every_lock waiters_on_Task true
            [OpTaskAwaitSuspend (mkTask (Some 0)) 9; OpReturnValue 0 42%Z;
             OpAsyncAwaitReady (Await_deferred 0%Z 1)] world_two_frames);
    [apply awaiting_Task_no_new_lock | exact world_two_frames_quiescent
    | vm_compute; reflexivity].
Defined.


(** X10, at the pending sample world: 9 registers, then 42 is published. *)
Lemma waiters_are_never_removed_witness :
  frames world_pending !! 0 = Some holder_pending ∧
  ∃ w' hd', run_ops waiters_on_Task false
              [OpTaskAwaitSuspend (mkTask (Some 0)) 9; OpReturnValue 0 42%Z]
              world_pending = Done tt w' ∧
            (EvDestroy 0 ∉ events_since (length (trace world_pending)) w') ∧
            frames w' !! 0 = Some hd' ∧
            to_resume holder_pending `prefix_of` to_resume hd'.
Proof.
  split; [reflexivity|].
  assert (∃ w', run_ops waiters_on_Task false
                  [OpTaskAwaitSuspend (mkTask (Some 0)) 9; OpReturnValue 0 42%Z]
                  world_pending = Done tt w' ∧
                EvDestroy 0 ∉ events_since (length (trace world_pending)) w')
    as (w' & Hrun & Hlive).
  { eexists. split; [vm_compute; reflexivity|]. not_logged. }
  destruct (waiters_are_never_removed waiters_on_Task false _ world_pending w' 0
              holder_pending (awaiting_Task_waiters_kept _ 0) eq_refl Hrun Hlive)
    as (hd' & E' & Hprefix).
  exists w', hd'. repeat split; assumption.
Defined.

(** X11, at the world with two frames, where [total_awaitable_ready] holds
    the largest [size_t]: the ready awaitable of frame 1 takes it to 0. *)
Lemma await_ready_counts_witness :
  is_immediate (Await_deferred 0%Z 1) = false ∧
  pself (Await_deferred 0%Z 1) = Some 1 ∧
  frames world_two_frames !! 1 = Some (mkHolder false true 5%Z [3]) ∧
  ∃ w', Async_await_ready true (Await_deferred 0%Z 1) world_two_frames = Done true w' ∧
        executor w' = mkStats 0 4 0.
Proof.
  repeat (split; [reflexivity|]).
  destruct (await_ready_counts (Await_deferred 0%Z 1) world_two_frames)
    as (_ & Hdeferred & _).
  destruct (Hdeferred eq_refl 1 (mkHolder false true 5%Z [3]) eq_refl eq_refl eq_refl)
    as (w' & Hrun & Hex).
  exists w'. split; assumption.
Defined.

(** X12, at the world with two frames, with [TELEMETRY] defined. *)
Lemma only_await_ready_counts_witness :
  Forall (λ o : Op Z, is_await_ready o = false)
    [OpReturnValue 0 42%Z; OpTaskAwaitReady (mkTask (Some 0))] ∧
  ∃ w', run_ops waiters_on_Task true
          [OpReturnValue 0 42%Z; OpTaskAwaitReady (mkTask (Some 0))]
          world_two_frames = Done tt w' ∧
        executor w' = executor world_two_frames.
Proof.
  assert (Forall (λ o : Op Z, is_await_ready o = false)
            [OpReturnValue 0 42%Z; OpTaskAwaitReady (mkTask (Some 0))]) as Hall
    by (repeat constructor).
  split; [exact Hall|].
  eexists. split; [vm_compute; reflexivity|].
  eapply (only_await_ready_counts waiters_on_Task true _ world_two_frames);
    [apply awaiting_Task_counters_kept | right; exact Hall | vm_compute; reflexivity].
Defined.

(** X15, at the pending sample world: 9 then 5 then 9 again register behind
    7 and 8. *)
Lemma publish_resumes_in_registration_order_witness :
  frames world_pending !! 0 = Some holder_pending ∧ mut holder_pending = false ∧
  returned holder_pending = false ∧
  ∃ w', (for_each [9; 5; 9] (Task_await_suspend waiters_on_Task (mkTask (Some 0))) ;;
         return_value waiters_on_Task 0 42%Z) world_pending = Done tt w' ∧
        resumed (events_since (length (trace world_pending)) w') = [7; 8; 9; 5; 9].
Proof.
  split; [reflexivity|]. split; [reflexivity|]. split; [reflexivity|].
  destruct (publish_resumes_in_registration_order waiters_on_Task world_pending 0
              holder_pending [9; 5; 9] 42%Z _ _
              eq_refl eq_refl eq_refl (or_introl eq_refl) (or_introl eq_refl))
    as [_ Hdone].
  destruct (Hdone eq_refl) as (w' & Hrun & Hres).
  exists w'. split; assumption.
Defined.

(** X16, at the published sample world. *)
Lemma suspend_on_returned_enters_under_lock_witness :
  frames world_published !! 0 = Some holder_published ∧ mut holder_published = false ∧
  returned holder_published = true ∧
  is_immediate (Await_deferred 0%Z 0) = false ∧ pself (Await_deferred 0%Z 0) = Some 0 ∧
  Async_await_suspend waiters_on_Async (Await_deferred 0%Z 0) 9 world_published = Blocked.
Proof.
  repeat (split; [reflexivity|]).
  exact (proj1 (suspend_on_returned_enters_under_lock world_published 0 holder_published
                  (Await_deferred 0%Z 0) 9 eq_refl eq_refl eq_refl eq_refl eq_refl)).
Defined.
